(** * RacingCar: the step/reset environment of the radio-controlled car

    A shallow embedding of [environment/racing_car.py]: the signal scaler
    [scale_range], the actuation driver [_update_pwm], the interrupt handler
    [_interrupt_handle] and the episode controller [reset] / [step] /
    [close], followed by the properties of the design document that concern
    them.

    Numbers.  The program is read as Python 3 ([/] is true division).  Its
    numbers are Python ints and IEEE doubles; they are modelled here as exact
    rationals ([Q]), so every arithmetic operation is the exact one and the
    rounding of doubles is outside the model.  Equalities between computed
    numbers are therefore stated with [==] ([Qeq]).  A division whose divisor
    is zero raises, as it does on Python's own numbers; no division of the
    program itself has such a divisor.  The scaler alone is also given on
    doubles ([scale_range_double]), to show where rounding decides one of
    its properties and where it does not.

    Effects.  A method is a computation in the monad [M]: it receives the
    object, returns a value or raises, and hands back the object as it has
    left it.  The two devices (pigpio and the camera) are part of the object:
    pigpio as the list of calls it has received, the camera as the frames it
    delivers. *)

From Stdlib Require Import PrimFloat.
From Stdlib Require Import ZArith QArith Qminmax Qabs Qfield Lqa Lia Bool List String.
Import ListNotations.

Local Open Scope Z_scope.
Local Open Scope Q_scope.

(** ** Exceptions and outcomes *)

Inductive exn : Type :=
| AssertionError (msg : string)
| ZeroDivisionError
| ValueError
| AttributeError.

Inductive outcome (A : Type) : Type :=
| Return (a : A)
| Raise (e : exn).

Arguments Return {A} a.
Arguments Raise {A} e.

(** Python's [x / y] on numbers. *)
Definition truediv (x y : Q) : outcome Q :=
  if Qeq_bool y 0 then Raise ZeroDivisionError else Return (x / y).

Definition Qlt_bool (x y : Q) : bool := negb (Qle_bool y x).

(** ** The signal scaler *)

(** [scale_range], lines 9-10:
    [((old_value - old_min) / (old_max - old_min)) * (new_max - new_min) + new_min]. *)
Definition scale_range (old_value old_min old_max new_min new_max : Q) : outcome Q :=
  match truediv (old_value - old_min) (old_max - old_min) with
  | Return q => Return (q * (new_max - new_min) + new_min)
  | Raise e => Raise e
  end.

(** The same line on IEEE doubles, the floats of Python and numpy: every
    operation rounds its exact result to the nearest double. *)
Definition scale_range_double
    (old_value old_min old_max new_min new_max : float) : outcome float :=
  if PrimFloat.eqb (old_max - old_min)%float 0%float then Raise ZeroDivisionError
  else
    Return (((old_value - old_min) / (old_max - old_min)) * (new_max - new_min)
            + new_min)%float.

(** ** Constants of the libraries *)

(** The two constants of pigpio that the handler compares [level] with. *)
Module pigpio.
Definition RISING_EDGE : Z := 0.
Definition TIMEOUT : Z := 2.
End pigpio.

(** What pigpio reports to a callback, and the [level] it passes for it: 0
    for a change to low, 1 for a change to high, 2 for a watchdog timeout.
    A callback set for the rising edge, as all four of [__init__] are, is
    called on changes to high and on timeouts only. *)
Inductive gpio_change : Type :=
| to_low
| to_high
| watchdog.

Definition callback_level (c : gpio_change) : Z :=
  match c with
  | to_low => 0
  | to_high => 1
  | watchdog => 2
  end.

(** [np.pi]: the double nearest to pi, 0x1.921fb54442d18p+1, as the rational
    it is. *)
Definition np_pi : Q := 884279719003555 # 281474976710656.

(** ** Data *)

(** A numpy array of numbers: its shape and its row-major buffer, read at the
    indices below its size. *)
Record ndarray : Type := {
  shape : list nat;
  data : nat -> Q
}.

Definition size (a : ndarray) : nat := fold_right Nat.mul 1%nat (shape a).

(** [np.array(l)] for a flat list of numbers. *)
Definition np_array (l : list Q) : ndarray :=
  {| shape := [List.length l]; data := fun i => List.nth i l 0 |}.

(** [a.max()]: numpy refuses an array without elements. *)
Definition ndarray_max (a : ndarray) : outcome Q :=
  match size a with
  | O => Raise ValueError
  | S n => Return (fold_left (fun m i => Qmax m (data a i)) (seq 1 n) (data a 0%nat))
  end.

Definition shape_eqb (s t : list nat) : bool :=
  if list_eq_dec Nat.eq_dec s t then true else false.

(** The picture of the camera, as the bytes of its RGB buffer. *)
Definition Image : Type := list Z.

(** The dictionary [self._car_info]; its five keys never change. *)
Record CarInfo : Type := {
  Steering_signal : Q;
  Motor_signal : Q;
  Reward : Q;
  Car_speed : Q;
  Done : bool
}.

(** The calls the program makes on its devices. *)
Inductive hw_call : Type :=
| set_watchdog (gpio : Z) (ms : Z)
| callback (gpio : Z) (edge : Z)
| set_servo_pulsewidth (gpio : Z) (pulsewidth : Q)
| capture
| cam_close
| pi_stop.

(** The camera: what it sees at each capture, and how many it has made. *)
Record PiCamera : Type := {
  scene : nat -> Image;
  shots : nat
}.

(** The object.  [calls] is the history of the device calls, the oldest
    first. *)
Record RacingCar : Type := {
  _motor_limitation : Q;
  _car_info : CarInfo;
  _encoder_pulse_count : Z;
  _image : Image;
  _cam : PiCamera;
  calls : list hw_call
}.

(** Pin configuration (lines 36-43). *)
Definition _STEERING_SERVO_PIN : Z := 4.
Definition _MOTOR_PIN : Z := 17.
Definition _LEFT_LINE_SENSOR_PIN : Z := 1.
Definition _RIGHT_LINE_SENSOR_PIN : Z := 2.
Definition _ENCODER_DIR_PIN : Z := 12.
Definition _ENCODER_PUL_PIN : Z := 12.
Definition _ENCODER_ZERO_PIN : Z := 13.
Definition _FORWARD_PIN_LEVEL : Z := 1.

(** Hardware configuration (lines 46-50). *)
Definition _TIRE_DIAMETER : Q := 5 # 100.
Definition _GEAR_RATIO : Q := 145 / 35.
Definition _ENCODER_LINE : Z := 512.
Definition _SERVO_RANGE : Q := 200.
Definition _MOTOR_RANGE : Q := 500.

(** Parameters (lines 53-54). *)
Definition _SPEED_UPDATE_INTERVAL : Z := 500.
Definition _REWARD_UPDATE_INTERVAL : Z := 500.

(** ** The monad of methods *)

Definition M (A : Type) : Type := RacingCar -> outcome A * RacingCar.

Definition ret {A : Type} (a : A) : M A := fun self => (Return a, self).

Definition bind {A B : Type} (m : M A) (k : A -> M B) : M B :=
  fun self =>
    match m self with
    | (Return a, self') => k a self'
    | (Raise e, self') => (Raise e, self')
    end.

Definition raise {A : Type} (e : exn) : M A := fun self => (Raise e, self).

Definition lift {A : Type} (o : outcome A) : M A := fun self => (o, self).

Definition get : M RacingCar := fun self => (Return self, self).

Definition put (self' : RacingCar) : M unit := fun _ => (Return tt, self').

Declare Scope method_scope.
Delimit Scope method_scope with method.

Notation "x <- m ;; k" := (bind m (fun x => k))
  (at level 61, m at next level, right associativity) : method_scope.
Notation "m ;; k" := (bind m (fun _ => k))
  (at level 61, right associativity) : method_scope.

Local Open Scope method_scope.

(** [assert cond, msg]. *)
Definition assert (cond : bool) (msg : string) : M unit :=
  if cond then ret tt else raise (AssertionError msg).

(** An [if] without [else]. *)
Definition when (cond : bool) (body : M unit) : M unit :=
  if cond then body else ret tt.

(** *** Assignments to the attributes *)

(** The object with one attribute replaced. *)
Definition with_car_info (d : CarInfo) (self : RacingCar) : RacingCar :=
  {| _motor_limitation := _motor_limitation self;
     _car_info := d;
     _encoder_pulse_count := _encoder_pulse_count self;
     _image := _image self;
     _cam := _cam self;
     calls := calls self |}.

Definition with_encoder_pulse_count (n : Z) (self : RacingCar) : RacingCar :=
  {| _motor_limitation := _motor_limitation self;
     _car_info := _car_info self;
     _encoder_pulse_count := n;
     _image := _image self;
     _cam := _cam self;
     calls := calls self |}.

(** The dictionary with one entry replaced. *)
Definition with_Steering_signal (v : Q) (d : CarInfo) : CarInfo :=
  {| Steering_signal := v; Motor_signal := Motor_signal d;
     Reward := Reward d; Car_speed := Car_speed d; Done := Done d |}.

Definition with_Motor_signal (v : Q) (d : CarInfo) : CarInfo :=
  {| Steering_signal := Steering_signal d; Motor_signal := v;
     Reward := Reward d; Car_speed := Car_speed d; Done := Done d |}.

Definition with_Reward (v : Q) (d : CarInfo) : CarInfo :=
  {| Steering_signal := Steering_signal d; Motor_signal := Motor_signal d;
     Reward := v; Car_speed := Car_speed d; Done := Done d |}.

Definition with_Car_speed (v : Q) (d : CarInfo) : CarInfo :=
  {| Steering_signal := Steering_signal d; Motor_signal := Motor_signal d;
     Reward := Reward d; Car_speed := v; Done := Done d |}.

Definition with_Done (v : bool) (d : CarInfo) : CarInfo :=
  {| Steering_signal := Steering_signal d; Motor_signal := Motor_signal d;
     Reward := Reward d; Car_speed := Car_speed d; Done := v |}.

(** [self._car_info = d] and [self._encoder_pulse_count = n]. *)
Definition set_car_info (d : CarInfo) : M unit :=
  self <- get ;; put (with_car_info d self).

Definition set_encoder_pulse_count (n : Z) : M unit :=
  self <- get ;; put (with_encoder_pulse_count n self).

(** [self._car_info['Steering signal'] = v] and its four siblings. *)
Definition set_Steering_signal (v : Q) : M unit :=
  self <- get ;; set_car_info (with_Steering_signal v (_car_info self)).

Definition set_Motor_signal (v : Q) : M unit :=
  self <- get ;; set_car_info (with_Motor_signal v (_car_info self)).

Definition set_Reward (v : Q) : M unit :=
  self <- get ;; set_car_info (with_Reward v (_car_info self)).

Definition set_Car_speed (v : Q) : M unit :=
  self <- get ;; set_car_info (with_Car_speed v (_car_info self)).

Definition set_Done (v : bool) : M unit :=
  self <- get ;; set_car_info (with_Done v (_car_info self)).

(** *** The devices *)

(** The object after further device calls. *)
Definition after_calls (cs : list hw_call) (self : RacingCar) : RacingCar :=
  {| _motor_limitation := _motor_limitation self;
     _car_info := _car_info self;
     _encoder_pulse_count := _encoder_pulse_count self;
     _image := _image self;
     _cam := _cam self;
     calls := calls self ++ cs |}.

(** A call on [self._pi] or [self._cam] that returns nothing. *)
Definition issue (c : hw_call) : M unit :=
  self <- get ;; put (after_calls [c] self).

(** The object after a capture: the camera has written the frame it saw
    into the buffer [self._image]. *)
Definition after_capture (self : RacingCar) : RacingCar :=
  let cam := _cam self in
  {| _motor_limitation := _motor_limitation self;
     _car_info := _car_info self;
     _encoder_pulse_count := _encoder_pulse_count self;
     _image := scene cam (shots cam);
     _cam := {| scene := scene cam; shots := S (shots cam) |};
     calls := calls self ++ [capture] |}.

(** [self._cam.capture(self._image, 'rgb', ...)]. *)
Definition cam_capture : M unit :=
  self <- get ;; put (after_capture self).

(** ** The actuation driver *)

(** [_update_pwm], lines 181-186. *)
Definition _update_pwm (steering_signal motor_signal : Q) : M unit :=
  pwm_wave <- lift (scale_range steering_signal (-1) 1
                      (1500 - _SERVO_RANGE) (1500 + _SERVO_RANGE)) ;;
  issue (set_servo_pulsewidth _STEERING_SERVO_PIN pwm_wave) ;;
  pwm_wave <- lift (scale_range motor_signal (-1) 1
                      (1500 - _MOTOR_RANGE) (1500 + _MOTOR_RANGE)) ;;
  issue (set_servo_pulsewidth _MOTOR_PIN pwm_wave).

(** ** The episode controller *)

(** The dictionary that [__init__] and [reset] build. *)
Definition zero_info : CarInfo :=
  {| Steering_signal := 0; Motor_signal := 0; Reward := 0; Car_speed := 0;
     Done := false |}.

(** The message of the assertion of line 33; the name stands between double
    quotes (character 34). *)
Definition motor_limitation_message : string :=
  (String (Ascii.ascii_of_nat 34) "motor_limitation"
   ++ String (Ascii.ascii_of_nat 34) " should not be greater than 1.")%string.


(** [__init__], lines 14-95, with line 74 read as if it named the class
    the package has: the camera it would open is given as [cam], and the
    object is returned.  This is the constructor that the properties about
    cars in use start from; the program as written never gets that far
    ([__init___as_written]).  The assertion, the watchdogs and callbacks,
    the neutral command and the attributes are modelled; the start of the
    pigpio daemon, the camera settings and the two random samples for the
    agent are left out. *)
Definition __init__ (motor_limitation : Q) (cam : PiCamera) : outcome RacingCar :=
  if negb (Qle_bool motor_limitation 1) then
    Raise (AssertionError motor_limitation_message)
  else
    let blank :=
      {| _motor_limitation := motor_limitation;
         _car_info := zero_info;
         _encoder_pulse_count := 0;
         _image := [];
         _cam := cam;
         calls := [] |} in
    match
      (issue (set_watchdog _ENCODER_PUL_PIN _SPEED_UPDATE_INTERVAL) ;;
       issue (set_watchdog _ENCODER_ZERO_PIN _REWARD_UPDATE_INTERVAL) ;;
       issue (callback _ENCODER_PUL_PIN pigpio.RISING_EDGE) ;;
       issue (callback _ENCODER_ZERO_PIN pigpio.RISING_EDGE) ;;
       issue (callback _LEFT_LINE_SENSOR_PIN pigpio.RISING_EDGE) ;;
       issue (callback _RIGHT_LINE_SENSOR_PIN pigpio.RISING_EDGE) ;;
       _update_pwm 0 0) blank
    with
    | (Return _, self) => Return self
    | (Raise e, _) => Raise e
    end.

(** [self.sample_action], lines 94-95: numpy applies the line of
    [scale_range], with the ranges 0..1 and -1..1, to each element of the
    array [sample] that [np.random.random_sample(2)] has drawn. *)
Definition sample_action (sample : ndarray) : ndarray :=
  {| shape := shape sample;
     data := fun i => ((data sample i - 0) / (1 - 0)) * (1 - -1) + -1 |}.

(** What [reset] and [step] return: [(image, reward, done, info)]. *)
Definition observation : Type := Image * Q * bool * CarInfo.

(** [reset], lines 97-114. *)
Definition reset : M observation :=
  _update_pwm 0 0 ;;
  cam_capture ;;
  set_car_info zero_info ;;
  self <- get ;;
  ret (_image self, Reward (_car_info self), Done (_car_info self), _car_info self).

(** [steering_signal, motor_signal = action], reached with shape (2,) only. *)
Definition unpack2 (action : ndarray) : Q * Q :=
  (data action 0%nat, data action 1%nat).

(** [step], lines 116-150. *)
Definition step (action : ndarray) : M observation :=
  assert (shape_eqb (shape action) [2%nat]) "Incorrect input shape." ;;
  m <- lift (ndarray_max action) ;;
  assert (Qle_bool m 1) "Incorrect input value." ;;
  self <- get ;;
  let '(steering_signal, motor_signal) :=
    if Done (_car_info self) then (0, 0) else unpack2 action in
  let motor_signal := motor_signal * _motor_limitation self in
  set_Steering_signal steering_signal ;;
  set_Motor_signal motor_signal ;;
  _update_pwm steering_signal motor_signal ;;
  cam_capture ;;
  self <- get ;;
  ret (_image self, Reward (_car_info self), Done (_car_info self), _car_info self).

(** [close], lines 152-156. *)
Definition close : M unit :=
  issue cam_close ;;
  _update_pwm 0 0 ;;
  issue pi_stop.

(** ** The interrupt handler *)

(** [_interrupt_handle], lines 158-179. *)
Definition _interrupt_handle (gpio level tick : Z) : M unit :=
  if ((gpio =? _LEFT_LINE_SENSOR_PIN) || (gpio =? _RIGHT_LINE_SENSOR_PIN))%Z then
    set_Done true
  else if (gpio =? _ENCODER_PUL_PIN)%Z then
    when (level =? pigpio.RISING_EDGE)%Z
      (self <- get ;;
       set_encoder_pulse_count (_encoder_pulse_count self + 1)) ;;
    when (level =? pigpio.TIMEOUT)%Z
      (self <- get ;;
       q <- lift (truediv (inject_Z (_encoder_pulse_count self)) (inject_Z _ENCODER_LINE)) ;;
       let s := q * np_pi * _TIRE_DIAMETER in
       t <- lift (truediv (inject_Z _SPEED_UPDATE_INTERVAL) 1000) ;;
       v <- lift (truediv s t) ;;
       set_Car_speed (v * _GEAR_RATIO) ;;
       set_encoder_pulse_count 0)
  else if (gpio =? _ENCODER_ZERO_PIN)%Z then
    when (level =? pigpio.RISING_EDGE)%Z
      (self <- get ;;
       set_Reward (Reward (_car_info self) + 5)) ;;
    when (level =? pigpio.TIMEOUT)%Z
      (self <- get ;;
       set_Reward (Reward (_car_info self) - 1) ;;
       self <- get ;;
       when (Qlt_bool (Reward (_car_info self)) 0)
         (set_Done true))
  else
    ret tt.

(** * Vocabulary of the properties *)

(** ** Reading a device history *)

(** Two device calls are the same command when they agree up to the
    representation of the pulse width as a fraction. *)
Inductive same_call : hw_call -> hw_call -> Prop :=
| same_servo (gpio : Z) (p q : Q) :
    p == q -> same_call (set_servo_pulsewidth gpio p) (set_servo_pulsewidth gpio q)
| same_other (c : hw_call) : same_call c c.

(** [issues before after new]: between [before] and [after] the devices
    received the calls [new], in this order, and no other. *)
Definition issues (before after : RacingCar) (new : list hw_call) : Prop :=
  exists cs, calls after = calls before ++ cs /\ Forall2 same_call cs new.

(** The commands to the two actuators. *)
Definition steer (us : Q) : hw_call := set_servo_pulsewidth _STEERING_SERVO_PIN us.
Definition drive (us : Q) : hw_call := set_servo_pulsewidth _MOTOR_PIN us.

(** The pulse width [scale_range] returns for a signal and a range around
    1500. *)
Definition pulsewidth (signal range : Q) : Q :=
  (signal - -1) / (1 - -1) * ((1500 + range) - (1500 - range)) + (1500 - range).

(** ** The states the methods lead to *)

(** The tuple [reset] and [step] return, read from the object as it stands. *)
Definition observe (self : RacingCar) : observation :=
  (_image self, Reward (_car_info self), Done (_car_info self), _car_info self).

(** The object after [reset]. *)
Definition after_reset (self : RacingCar) : RacingCar :=
  with_car_info zero_info
    (after_capture
       (after_calls [steer (pulsewidth 0 _SERVO_RANGE);
                     drive (pulsewidth 0 _MOTOR_RANGE)] self)).

(** The object after a [step] that has passed its assertions and settled on
    the signals [s] and [m]. *)
Definition after_step (s m : Q) (self : RacingCar) : RacingCar :=
  after_capture
    (after_calls [steer (pulsewidth s _SERVO_RANGE);
                  drive (pulsewidth m _MOTOR_RANGE)]
       (with_car_info
          (with_Motor_signal m (with_Steering_signal s (_car_info self))) self)).

(** The speed the handler derives from [n] pulses counted in one window
    (lines 167-169). *)
Definition window_speed (n : Z) : Q :=
  inject_Z n / inject_Z _ENCODER_LINE * np_pi * _TIRE_DIAMETER
  / (inject_Z _SPEED_UPDATE_INTERVAL / 1000) * _GEAR_RATIO.

(** The handler on the lap marker pin. *)
Definition lap_marker (level tick : Z) (self : RacingCar) : RacingCar :=
  snd (_interrupt_handle _ENCODER_ZERO_PIN level tick self).

(** ** Histories *)

(** What happens to the object between two calls of [reset]: a call of
    [step] or of [close], or an event.  The caller survives a [step] that
    raises and goes on with the object as the call has left it. *)
Inductive operation : Type :=
| call_step (action : ndarray)
| call_close
| event (gpio level tick : Z).

Definition perform (o : operation) (self : RacingCar) : RacingCar :=
  match o with
  | call_step action => snd (step action self)
  | call_close => snd (close self)
  | event gpio level tick => snd (_interrupt_handle gpio level tick self)
  end.

Definition perform_all (history : list operation) (self : RacingCar) : RacingCar :=
  fold_left (fun car o => perform o car) history self.

(** What a caller and the hardware can do to the object in any order: a
    call of [reset], or one of the operations above. *)
Inductive request : Type :=
| call_reset
| within_episode (o : operation).

Definition serve (r : request) (self : RacingCar) : RacingCar :=
  match r with
  | call_reset => snd (reset self)
  | within_episode o => perform o self
  end.

Definition serve_all (requests : list request) (self : RacingCar) : RacingCar :=
  fold_left (fun car r => serve r car) requests self.

(** The requests that can reach a car in use: every call, and the events
    with a level that pigpio passes to a callback set for the rising edge. *)
Definition delivered (r : request) : Prop :=
  match r with
  | within_episode (event _ level _) =>
      level = callback_level to_high \/ level = callback_level watchdog
  | _ => True
  end.

(** The timeouts of the lap marker, one at each of the given ticks. *)
Definition lap_timeouts (ticks : list Z) : list operation :=
  map (fun tick => event _ENCODER_ZERO_PIN pigpio.TIMEOUT tick) ticks.

(** *** A car on the bench, for the examples *)

(** A camera in the dark. *)
Definition still_camera : PiCamera := {| scene := fun _ => []; shots := 0 |}.

(** The object [__init__] builds with the default limitation 0.6 and the
    camera in the dark. *)
Definition fresh_car : RacingCar :=
  {| _motor_limitation := 6 # 10;
     _car_info := zero_info;
     _encoder_pulse_count := 0;
     _image := [];
     _cam := still_camera;
     calls := [set_watchdog 12 500; set_watchdog 13 500;
               callback 12 0; callback 13 0; callback 1 0; callback 2 0;
               steer (pulsewidth 0 _SERVO_RANGE); drive (pulsewidth 0 _MOTOR_RANGE)] |}.

(** The same car after its left line sensor has fired. *)
Definition crashed_car : RacingCar :=
  with_car_info (with_Done true zero_info) fresh_car.

(** * Properties *)

(** Running a method: the monad, the assignments and the projections are
    computed, the arithmetic is left as it is written. *)
Ltac run :=
  cbv beta iota zeta delta
      [bind ret raise lift get put assert when issue cam_capture
       set_car_info set_encoder_pulse_count set_Steering_signal
       set_Motor_signal set_Reward set_Car_speed set_Done
       with_car_info with_encoder_pulse_count after_calls after_capture
       with_Steering_signal with_Motor_signal with_Reward with_Car_speed
       with_Done];
  cbn [fst snd
       _motor_limitation _car_info _encoder_pulse_count _image _cam calls
       Steering_signal Motor_signal Reward Car_speed Done scene shots].

(** ** The signal scaler *)

Lemma truediv_defined (x y : Q) : ~ y == 0 -> truediv x y = Return (x / y).
Proof.
  intros Hy. unfold truediv.
  destruct (Qeq_bool y 0) eqn:E; [ | reflexivity ].
  apply Qeq_bool_eq in E. contradiction.
Qed.

Lemma scale_range_defined (v old_min old_max new_min new_max : Q) :
  ~ old_min == old_max ->
  scale_range v old_min old_max new_min new_max
  = Return ((v - old_min) / (old_max - old_min) * (new_max - new_min) + new_min).
Proof.
  intros Hne. unfold scale_range.
  rewrite truediv_defined; [ reflexivity | ].
  intros E. apply Hne. lra.
Qed.

Lemma scale_range_raises (v old_min old_max new_min new_max : Q) :
  old_min == old_max ->
  scale_range v old_min old_max new_min new_max = Raise ZeroDivisionError.
Proof.
  intros E. unfold scale_range, truediv.
  assert (Z : old_max - old_min == 0) by lra.
  apply Qeq_eq_bool in Z. rewrite Z. reflexivity.
Qed.

Section Affine.

Variables a b c d : Q.

Lemma affine_lower : ~ a == b -> (a - a) / (b - a) * (d - c) + c == c.
Proof. intros Hne. field. intros E. apply Hne. lra. Qed.

Lemma affine_upper : ~ a == b -> (b - a) / (b - a) * (d - c) + c == d.
Proof. intros Hne. field. intros E. apply Hne. lra. Qed.

Hypothesis Hab : a < b.
Hypothesis Hcd : c < d.

Lemma affine_slope : 0 < / (b - a) * (d - c).
Proof.
  apply Qmult_lt_0_compat; [ | lra ].
  apply Qinv_lt_0_compat. lra.
Qed.

Lemma affine_increasing (v1 v2 : Q) :
  v1 < v2 ->
  (v1 - a) / (b - a) * (d - c) + c < (v2 - a) / (b - a) * (d - c) + c.
Proof.
  intros Hv. pose proof affine_slope as Hk.
  assert (Hp : 0 < (v2 - v1) * (/ (b - a) * (d - c)))
    by (apply Qmult_lt_0_compat; [ lra | exact Hk ]).
  unfold Qdiv. set (i := / (b - a)) in *. lra.
Qed.

Lemma affine_monotone (v1 v2 : Q) :
  v1 <= v2 ->
  (v1 - a) / (b - a) * (d - c) + c <= (v2 - a) / (b - a) * (d - c) + c.
Proof.
  intros Hv.
  destruct (Qlt_le_dec v1 v2) as [Hlt | Hge].
  - apply Qlt_le_weak. now apply affine_increasing.
  - assert (E : v1 == v2) by lra. rewrite E. apply Qle_refl.
Qed.

End Affine.

(** C7, as first stated, fails on doubles: from the range 0..1 to the
    range -0.1..0.2 (the doubles of these decimals, written in hexadecimal)
    the old upper bound 1 is sent to 0.20000000000000004, the double next
    above 0.2, since 0.2 - -0.1 rounds up.  The old lower bound is sent to
    -0.1 itself. *)
Lemma scale_range_double_upper_bound :
  PrimFloat.eqb 0 1 = false /\
  exists lo hi,
    scale_range_double 0 0 1 (-0x1.999999999999ap-4) 0x1.999999999999ap-3 = Return lo /\
    PrimFloat.eqb lo (-0x1.999999999999ap-4) = true /\
    scale_range_double 1 0 1 (-0x1.999999999999ap-4) 0x1.999999999999ap-3 = Return hi /\
    hi = 0x1.999999999999bp-3%float /\
    PrimFloat.eqb hi 0x1.999999999999ap-3 = false.
Proof.
  split; [ reflexivity | ].
  exists (-0x1.999999999999ap-4)%float, 0x1.999999999999bp-3%float.
  repeat match goal with |- _ /\ _ => split end; vm_compute; reflexivity.
Qed.

(** On doubles too, the two ranges of the actuation driver send -1, 0 and 1
    to their bounds and centre with no rounding. *)
Lemma scale_range_double_pulsewidths :
  scale_range_double (-1) (-1) 1 (1500 - 200) (1500 + 200) = Return 1300%float /\
  scale_range_double 0 (-1) 1 (1500 - 200) (1500 + 200) = Return 1500%float /\
  scale_range_double 1 (-1) 1 (1500 - 200) (1500 + 200) = Return 1700%float /\
  scale_range_double (-1) (-1) 1 (1500 - 500) (1500 + 500) = Return 1000%float /\
  scale_range_double 0 (-1) 1 (1500 - 500) (1500 + 500) = Return 1500%float /\
  scale_range_double 1 (-1) 1 (1500 - 500) (1500 + 500) = Return 2000%float.
Proof.
  repeat match goal with |- _ /\ _ => split end; vm_compute; reflexivity.
Qed.

(** C7, amended: in exact arithmetic.  For every pair of ranges whose old
    bounds differ, [scale_range] returns the new lower bound at the old lower
    bound and the new upper bound at the old upper bound; and when both
    ranges are increasing it is increasing in its value, strictly and
    weakly. *)
Theorem scale_range_algebra (old_min old_max new_min new_max : Q) :
  ~ old_min == old_max ->
  (exists lo hi,
      scale_range old_min old_min old_max new_min new_max = Return lo /\ lo == new_min /\
      scale_range old_max old_min old_max new_min new_max = Return hi /\ hi == new_max)
  /\ (old_min < old_max -> new_min < new_max ->
      forall v1 v2, exists r1 r2,
        scale_range v1 old_min old_max new_min new_max = Return r1 /\
        scale_range v2 old_min old_max new_min new_max = Return r2 /\
        (v1 < v2 -> r1 < r2) /\ (v1 <= v2 -> r1 <= r2)).
Proof.
  intros Hne. split.
  - do 2 eexists. rewrite !scale_range_defined by exact Hne.
    split; [ reflexivity | ]. split; [ now apply affine_lower | ].
    split; [ reflexivity | now apply affine_upper ].
  - intros Hold Hnew v1 v2. do 2 eexists.
    rewrite !scale_range_defined by exact Hne.
    split; [ reflexivity | ]. split; [ reflexivity | ]. split; intros Hv.
    + now apply affine_increasing.
    + now apply affine_monotone.
Qed.

Lemma scale_range_algebra_witness :
  ~ -1 == 1 /\
  exists lo hi,
    scale_range (-1) (-1) 1 1300 1700 = Return lo /\ lo == 1300 /\
    scale_range 1 (-1) 1 1300 1700 = Return hi /\ hi == 1700.
Proof.
  assert (Hne : ~ -1 == 1) by (intros E; discriminate E).
  split; [ exact Hne | ].
  exact (proj1 (scale_range_algebra (-1) 1 1300 1700 Hne)).
Defined.

(** ** The actuation driver *)

Lemma pulsewidth_affine (signal range : Q) :
  pulsewidth signal range == 1500 + signal * range.
Proof. unfold pulsewidth. field. Qed.

Lemma scale_range_pulsewidth (signal range : Q) :
  scale_range signal (-1) 1 (1500 - range) (1500 + range)
  = Return (pulsewidth signal range).
Proof. reflexivity. Qed.

(** [_update_pwm] never raises: it sends the steering pulse, then the motor
    pulse, and touches nothing else. *)
Lemma _update_pwm_run (steering_signal motor_signal : Q) (self : RacingCar) :
  _update_pwm steering_signal motor_signal self
  = (Return tt,
     after_calls [steer (pulsewidth steering_signal _SERVO_RANGE);
                  drive (pulsewidth motor_signal _MOTOR_RANGE)] self).
Proof.
  unfold _update_pwm. rewrite !scale_range_pulsewidth. run.
  rewrite <- app_assoc. reflexivity.
Qed.

Lemma issues_after_calls (cs new : list hw_call) (self : RacingCar) :
  Forall2 same_call cs new -> issues self (after_calls cs self) new.
Proof. intros H. exists cs. split; [ reflexivity | exact H ]. Qed.

Lemma same_steer (p q : Q) : p == q -> same_call (steer p) (steer q).
Proof. apply same_servo. Qed.

Lemma same_drive (p q : Q) : p == q -> same_call (drive p) (drive q).
Proof. apply same_servo. Qed.

Lemma _update_pwm_issues (s m ps pm : Q) (self : RacingCar) :
  1500 + s * _SERVO_RANGE == ps -> 1500 + m * _MOTOR_RANGE == pm ->
  issues self (snd (_update_pwm s m self)) [steer ps; drive pm].
Proof.
  intros Hs Hm. rewrite _update_pwm_run. cbn [snd].
  apply issues_after_calls.
  constructor; [ apply same_steer; now rewrite pulsewidth_affine | ].
  constructor; [ apply same_drive; now rewrite pulsewidth_affine | ].
  constructor.
Qed.

(** C8.  With the servo range 200 and the motor range 500 of the source,
    [_update_pwm] returns and sends to the steering pin (4) the pulse widths
    1300, 1500, 1700 for the steering signals -1, 0, 1, and to the motor pin
    (17) the pulse widths 1000, 1500, 2000 for the motor signals -1, 0, 1. *)
Theorem _update_pwm_encoding (self : RacingCar) :
  _SERVO_RANGE = 200 /\ _MOTOR_RANGE = 500 /\
  _STEERING_SERVO_PIN = 4%Z /\ _MOTOR_PIN = 17%Z /\
  (forall s m, fst (_update_pwm s m self) = Return tt) /\
  (forall m, exists pm,
      issues self (snd (_update_pwm (-1) m self))
        [set_servo_pulsewidth 4 1300; set_servo_pulsewidth 17 pm]) /\
  (forall m, exists pm,
      issues self (snd (_update_pwm 0 m self))
        [set_servo_pulsewidth 4 1500; set_servo_pulsewidth 17 pm]) /\
  (forall m, exists pm,
      issues self (snd (_update_pwm 1 m self))
        [set_servo_pulsewidth 4 1700; set_servo_pulsewidth 17 pm]) /\
  (forall s, exists ps,
      issues self (snd (_update_pwm s (-1) self))
        [set_servo_pulsewidth 4 ps; set_servo_pulsewidth 17 1000]) /\
  (forall s, exists ps,
      issues self (snd (_update_pwm s 0 self))
        [set_servo_pulsewidth 4 ps; set_servo_pulsewidth 17 1500]) /\
  (forall s, exists ps,
      issues self (snd (_update_pwm s 1 self))
        [set_servo_pulsewidth 4 ps; set_servo_pulsewidth 17 2000]).
Proof.
  repeat match goal with |- _ /\ _ => split end; try reflexivity.
  - intros m. eexists. apply _update_pwm_issues; reflexivity.
  - intros m. eexists. apply _update_pwm_issues; reflexivity.
  - intros m. eexists. apply _update_pwm_issues; reflexivity.
  - intros s. eexists. apply _update_pwm_issues; reflexivity.
  - intros s. eexists. apply _update_pwm_issues; reflexivity.
  - intros s. eexists. apply _update_pwm_issues; reflexivity.
Qed.

(** ** The episode controller *)

(** [reset] never raises. *)
Lemma reset_run (self : RacingCar) :
  reset self = (Return (observe (after_reset self)), after_reset self).
Proof.
  unfold reset. run. rewrite _update_pwm_run. reflexivity.
Qed.

Lemma close_run (self : RacingCar) :
  close self
  = (Return tt,
     after_calls [pi_stop]
       (after_calls [steer (pulsewidth 0 _SERVO_RANGE);
                     drive (pulsewidth 0 _MOTOR_RANGE)]
          (after_calls [cam_close] self))).
Proof.
  unfold close. run. rewrite _update_pwm_run. reflexivity.
Qed.

Lemma shape_eqb_true (s t : list nat) : shape_eqb s t = true <-> s = t.
Proof.
  unfold shape_eqb. destruct (list_eq_dec Nat.eq_dec s t); split; congruence.
Qed.

Lemma shape_eqb_false (s t : list nat) : shape_eqb s t = false <-> s <> t.
Proof.
  unfold shape_eqb. destruct (list_eq_dec Nat.eq_dec s t); split; congruence.
Qed.

(** The largest element of an array of shape (2,). *)
Lemma ndarray_max_pair (a : ndarray) :
  shape a = [2%nat] ->
  ndarray_max a = Return (Qmax (data a 0%nat) (data a 1%nat)).
Proof. intros H. unfold ndarray_max, size. rewrite H. reflexivity. Qed.

(** The first assertion of [step]. *)
Lemma step_wrong_shape (action : ndarray) (self : RacingCar) :
  shape action <> [2%nat] ->
  step action self = (Raise (AssertionError "Incorrect input shape."), self).
Proof.
  intros H. apply shape_eqb_false in H. unfold step. rewrite H. reflexivity.
Qed.

(** The second assertion of [step]. *)
Lemma step_wrong_value (action : ndarray) (self : RacingCar) (m : Q) :
  shape action = [2%nat] -> ndarray_max action = Return m -> ~ m <= 1 ->
  step action self = (Raise (AssertionError "Incorrect input value."), self).
Proof.
  intros Hs Hm Hgt. apply shape_eqb_true in Hs. unfold step.
  rewrite Hs, Hm. run.
  destruct (Qle_bool m 1) eqn:E; [ | reflexivity ].
  apply Qle_bool_iff in E. contradiction.
Qed.

(** A [step] whose action passes both assertions, in an episode that has
    ended: the signals are 0 and 0 times the limitation. *)
Lemma step_run_terminated (action : ndarray) (self : RacingCar) (m : Q) :
  shape action = [2%nat] -> ndarray_max action = Return m -> m <= 1 ->
  Done (_car_info self) = true ->
  let final := after_step 0 (0 * _motor_limitation self) self in
  step action self = (Return (observe final), final).
Proof.
  intros Hs Hm Hle Hd. apply shape_eqb_true in Hs. apply Qle_bool_iff in Hle.
  unfold step. rewrite Hs, Hm. run. rewrite Hle, Hd. run.
  rewrite _update_pwm_run. reflexivity.
Qed.

(** The same in a running episode: the signals are the two numbers of the
    action, the second times the limitation. *)
Lemma step_run_active (action : ndarray) (self : RacingCar) (m : Q) :
  shape action = [2%nat] -> ndarray_max action = Return m -> m <= 1 ->
  Done (_car_info self) = false ->
  let final :=
    after_step (data action 0%nat) (data action 1%nat * _motor_limitation self) self in
  step action self = (Return (observe final), final).
Proof.
  intros Hs Hm Hle Hd. apply shape_eqb_true in Hs. apply Qle_bool_iff in Hle.
  unfold step. rewrite Hs, Hm. run. rewrite Hle, Hd. unfold unpack2. run.
  rewrite _update_pwm_run. reflexivity.
Qed.

(** ** The interrupt handler *)

(** Deciding the tests of the handler on the pins and levels of the source. *)
Ltac dispatch :=
  cbv beta iota delta
      [_interrupt_handle _LEFT_LINE_SENSOR_PIN _RIGHT_LINE_SENSOR_PIN
       _ENCODER_PUL_PIN _ENCODER_ZERO_PIN pigpio.RISING_EDGE pigpio.TIMEOUT
       Z.eqb Pos.eqb orb].

Ltac nonzero := apply Qeq_bool_neq; reflexivity.

(** Either line sensor, at any level, ends the episode. *)
Lemma line_sensor_run (gpio level tick : Z) (self : RacingCar) :
  gpio = _LEFT_LINE_SENSOR_PIN \/ gpio = _RIGHT_LINE_SENSOR_PIN ->
  _interrupt_handle gpio level tick self
  = (Return tt, with_car_info (with_Done true (_car_info self)) self).
Proof. intros [-> | ->]; dispatch; reflexivity. Qed.

Lemma encoder_rising_run (tick : Z) (self : RacingCar) :
  _interrupt_handle _ENCODER_PUL_PIN pigpio.RISING_EDGE tick self
  = (Return tt, with_encoder_pulse_count (_encoder_pulse_count self + 1) self).
Proof. dispatch. reflexivity. Qed.

Lemma encoder_timeout_run (tick : Z) (self : RacingCar) :
  _interrupt_handle _ENCODER_PUL_PIN pigpio.TIMEOUT tick self
  = (Return tt,
     with_encoder_pulse_count 0
       (with_car_info
          (with_Car_speed (window_speed (_encoder_pulse_count self)) (_car_info self))
          self)).
Proof.
  dispatch. run.
  rewrite (truediv_defined _ (inject_Z _ENCODER_LINE)) by nonzero.
  rewrite (truediv_defined _ 1000) by nonzero.
  rewrite (truediv_defined _ (inject_Z _SPEED_UPDATE_INTERVAL / 1000)) by nonzero.
  reflexivity.
Qed.

Lemma lap_rising_run (tick : Z) (self : RacingCar) :
  _interrupt_handle _ENCODER_ZERO_PIN pigpio.RISING_EDGE tick self
  = (Return tt,
     with_car_info (with_Reward (Reward (_car_info self) + 5) (_car_info self)) self).
Proof. dispatch. reflexivity. Qed.

Lemma lap_timeout_run (tick : Z) (self : RacingCar) :
  let reward := Reward (_car_info self) - 1 in
  _interrupt_handle _ENCODER_ZERO_PIN pigpio.TIMEOUT tick self
  = (Return tt,
     with_car_info
       {| Steering_signal := Steering_signal (_car_info self);
          Motor_signal := Motor_signal (_car_info self);
          Reward := reward;
          Car_speed := Car_speed (_car_info self);
          Done := if Qlt_bool reward 0 then true else Done (_car_info self) |}
       self).
Proof.
  intros reward. dispatch. run. fold reward.
  destruct (Qlt_bool reward 0); reflexivity.
Qed.

(** The encoder and the lap marker react to two levels only. *)
Lemma encoder_other_level (level tick : Z) (self : RacingCar) :
  level <> pigpio.RISING_EDGE -> level <> pigpio.TIMEOUT ->
  _interrupt_handle _ENCODER_PUL_PIN level tick self = (Return tt, self).
Proof.
  intros Hr Ht. apply Z.eqb_neq in Hr, Ht.
  unfold _interrupt_handle. rewrite Hr, Ht. reflexivity.
Qed.

Lemma lap_other_level (level tick : Z) (self : RacingCar) :
  level <> pigpio.RISING_EDGE -> level <> pigpio.TIMEOUT ->
  _interrupt_handle _ENCODER_ZERO_PIN level tick self = (Return tt, self).
Proof.
  intros Hr Ht. apply Z.eqb_neq in Hr, Ht.
  unfold _interrupt_handle. rewrite Hr, Ht. reflexivity.
Qed.

(** A pin that has no role. *)
Lemma other_pin (gpio level tick : Z) (self : RacingCar) :
  gpio <> _LEFT_LINE_SENSOR_PIN -> gpio <> _RIGHT_LINE_SENSOR_PIN ->
  gpio <> _ENCODER_PUL_PIN -> gpio <> _ENCODER_ZERO_PIN ->
  _interrupt_handle gpio level tick self = (Return tt, self).
Proof.
  intros Hl Hr Hp Hz. apply Z.eqb_neq in Hl, Hr, Hp, Hz.
  unfold _interrupt_handle. rewrite Hl, Hr, Hp, Hz. reflexivity.
Qed.

(** ** Summaries of the methods *)

(** What [step] does, by cases on its two assertions and on [Done]. *)
Lemma step_cases (action : ndarray) (self : RacingCar) :
  (shape action <> [2%nat] /\
   step action self = (Raise (AssertionError "Incorrect input shape."), self))
  \/ (shape action = [2%nat] /\
      ~ Qmax (data action 0%nat) (data action 1%nat) <= 1 /\
      step action self = (Raise (AssertionError "Incorrect input value."), self))
  \/ (shape action = [2%nat] /\
      Qmax (data action 0%nat) (data action 1%nat) <= 1 /\
      exists s m,
        step action self = (Return (observe (after_step s m self)), after_step s m self) /\
        ((Done (_car_info self) = true /\ s = 0 /\ m = 0 * _motor_limitation self)
         \/ (Done (_car_info self) = false /\ s = data action 0%nat /\
             m = data action 1%nat * _motor_limitation self))).
Proof.
  destruct (list_eq_dec Nat.eq_dec (shape action) [2%nat]) as [Hs | Hs].
  - right. pose proof (ndarray_max_pair action Hs) as Hm.
    destruct (Qlt_le_dec 1 (Qmax (data action 0%nat) (data action 1%nat))) as [Hgt | Hle].
    + left. split; [ exact Hs | ]. split; [ lra | ].
      apply (step_wrong_value action self _ Hs Hm). lra.
    + right. split; [ exact Hs | ]. split; [ exact Hle | ].
      destruct (Done (_car_info self)) eqn:Hd.
      * exists 0, (0 * _motor_limitation self). split.
        -- exact (step_run_terminated action self _ Hs Hm Hle Hd).
        -- left. repeat split.
      * exists (data action 0%nat), (data action 1%nat * _motor_limitation self). split.
        -- exact (step_run_active action self _ Hs Hm Hle Hd).
        -- right. repeat split.
  - left. split; [ exact Hs | ]. now apply step_wrong_shape.
Qed.

(** A [step] that raises has changed nothing, on the object or the devices. *)
Lemma step_raise_unchanged (action : ndarray) (self final : RacingCar) (e : exn) :
  step action self = (Raise e, final) -> final = self.
Proof.
  intros H.
  destruct (step_cases action self)
    as [[_ E] | [[_ [_ E]] | [_ [_ [s [m [E _]]]]]]];
    rewrite E in H; congruence.
Qed.

(** What the handler does, by cases on the pin and the level. *)
Lemma _interrupt_handle_cases (gpio level tick : Z) (self : RacingCar) :
  let info := _car_info self in
  let result := _interrupt_handle gpio level tick self in
  ((gpio = _LEFT_LINE_SENSOR_PIN \/ gpio = _RIGHT_LINE_SENSOR_PIN) /\
   result = (Return tt, with_car_info (with_Done true info) self))
  \/ (gpio = _ENCODER_PUL_PIN /\ level = pigpio.RISING_EDGE /\
      result = (Return tt, with_encoder_pulse_count (_encoder_pulse_count self + 1) self))
  \/ (gpio = _ENCODER_PUL_PIN /\ level = pigpio.TIMEOUT /\
      result = (Return tt,
                with_encoder_pulse_count 0
                  (with_car_info
                     (with_Car_speed (window_speed (_encoder_pulse_count self)) info)
                     self)))
  \/ (gpio = _ENCODER_ZERO_PIN /\ level = pigpio.RISING_EDGE /\
      result = (Return tt, with_car_info (with_Reward (Reward info + 5) info) self))
  \/ (gpio = _ENCODER_ZERO_PIN /\ level = pigpio.TIMEOUT /\
      exists done,
        result = (Return tt,
                  with_car_info (with_Done done (with_Reward (Reward info - 1) info)) self) /\
        (done = true \/ done = Done info))
  \/ result = (Return tt, self).
Proof.
  intros info result. subst result.
  destruct (Z.eq_dec gpio _LEFT_LINE_SENSOR_PIN) as [Hl | Hl].
  { left. split; [ now left | ]. apply line_sensor_run. now left. }
  destruct (Z.eq_dec gpio _RIGHT_LINE_SENSOR_PIN) as [Hr | Hr].
  { left. split; [ now right | ]. apply line_sensor_run. now right. }
  right.
  destruct (Z.eq_dec gpio _ENCODER_PUL_PIN) as [Hp | Hp].
  { subst gpio.
    destruct (Z.eq_dec level pigpio.RISING_EDGE) as [Er | Er].
    { subst level. left. split; [ reflexivity | ]. split; [ reflexivity | ]. apply encoder_rising_run. }
    destruct (Z.eq_dec level pigpio.TIMEOUT) as [Et | Et].
    { subst level. right. left. split; [ reflexivity | ]. split; [ reflexivity | ]. apply encoder_timeout_run. }
    do 4 right. now apply encoder_other_level. }
  destruct (Z.eq_dec gpio _ENCODER_ZERO_PIN) as [Hz | Hz].
  { subst gpio.
    destruct (Z.eq_dec level pigpio.RISING_EDGE) as [Er | Er].
    { subst level. do 2 right. left. split; [ reflexivity | ]. split; [ reflexivity | ]. apply lap_rising_run. }
    destruct (Z.eq_dec level pigpio.TIMEOUT) as [Et | Et].
    { subst level. do 3 right. left. split; [ reflexivity | ]. split; [ reflexivity | ].
      rewrite lap_timeout_run.
      destruct (Qlt_bool (Reward (_car_info self) - 1) 0);
        eexists; (split; [ reflexivity | ]); [ now left | now right ]. }
    do 4 right. now apply lap_other_level. }
  do 4 right. now apply other_pin.
Qed.

(** The handler never raises. *)
Lemma _interrupt_handle_returns (gpio level tick : Z) (self : RacingCar) :
  fst (_interrupt_handle gpio level tick self) = Return tt.
Proof.
  destruct (_interrupt_handle_cases gpio level tick self)
    as [[_ E] | [[_ [_ E]] | [[_ [_ E]] | [[_ [_ E]] | [[_ [_ [d [E _]]]] | E]]]]];
    rewrite E; reflexivity.
Qed.

(** No event clears the flag [Done]. *)
Lemma _interrupt_handle_keeps_Done (gpio level tick : Z) (self : RacingCar) :
  Done (_car_info self) = true ->
  Done (_car_info (snd (_interrupt_handle gpio level tick self))) = true.
Proof.
  intros Hd.
  destruct (_interrupt_handle_cases gpio level tick self)
    as [[_ E] | [[_ [_ E]] | [[_ [_ E]] | [[_ [_ E]] | [[_ [_ [d [E Hdone]]]] | E]]]]];
    rewrite E; cbn; try assumption; try reflexivity.
  destruct Hdone as [-> | ->]; [ reflexivity | assumption ].
Qed.

(** Reading the device history of the episode controller. *)
Lemma issues_after_step (s m ps pm : Q) (self : RacingCar) :
  1500 + s * _SERVO_RANGE == ps -> 1500 + m * _MOTOR_RANGE == pm ->
  issues self (after_step s m self) [steer ps; drive pm; capture].
Proof.
  intros Hs Hm. eexists. split.
  - unfold after_step. run. rewrite <- app_assoc. reflexivity.
  - constructor; [ apply same_steer; now rewrite pulsewidth_affine | ].
    constructor; [ apply same_drive; now rewrite pulsewidth_affine | ].
    repeat constructor.
Qed.

Lemma issues_after_reset (self : RacingCar) :
  issues self (after_reset self) [steer 1500; drive 1500; capture].
Proof.
  eexists. split.
  - unfold after_reset. run. rewrite <- app_assoc. reflexivity.
  - constructor; [ apply same_steer; reflexivity | ].
    constructor; [ apply same_drive; reflexivity | ].
    repeat constructor.
Qed.

(** A history that has not grown has issued nothing longer than nothing. *)
Lemma issues_nothing (self : RacingCar) (new : list hw_call) :
  issues self self new -> new = [].
Proof.
  intros [cs [E F]].
  assert (Hcs : cs = []).
  { apply (f_equal (@List.length hw_call)) in E. rewrite length_app in E.
    destruct cs; [ reflexivity | cbn in E; lia ]. }
  subst cs. inversion F. reflexivity.
Qed.

(** ** A car on the bench *)

Lemma fresh_car_built : __init__ (6 # 10) still_camera = Return fresh_car.
Proof. reflexivity. Qed.

Lemma crashed_car_reached (level tick : Z) :
  _interrupt_handle _LEFT_LINE_SENSOR_PIN level tick fresh_car = (Return tt, crashed_car).
Proof. reflexivity. Qed.

(** ** The termination latch *)

(** C1, as first stated, fails: in an episode that has ended, a [step] whose
    action breaks the second assertion raises and sends no command at all,
    neutral or other. *)
Lemma step_latch_counterexample :
  Done (_car_info crashed_car) = true /\
  step (np_array [15 # 10; 0]) crashed_car
  = (Raise (AssertionError "Incorrect input value."), crashed_car) /\
  ~ issues crashed_car (snd (step (np_array [15 # 10; 0]) crashed_car))
      [steer 1500; drive 1500; capture].
Proof.
  assert (E : step (np_array [15 # 10; 0]) crashed_car
              = (Raise (AssertionError "Incorrect input value."), crashed_car))
    by reflexivity.
  split; [ reflexivity | ]. split; [ exact E | ].
  rewrite E. cbn [snd]. intros H. apply issues_nothing in H. discriminate H.
Qed.

(** [Done], once true, is true after every operation but [reset]. *)
Lemma perform_keeps_Done (o : operation) (self : RacingCar) :
  Done (_car_info self) = true -> Done (_car_info (perform o self)) = true.
Proof.
  intros Hd. destruct o as [action | | gpio level tick]; cbn [perform].
  - destruct (step_cases action self)
      as [[_ E] | [[_ [_ E]] | [_ [_ [s [m [E _]]]]]]]; rewrite E; exact Hd.
  - rewrite close_run. exact Hd.
  - now apply _interrupt_handle_keeps_Done.
Qed.

Lemma perform_all_keeps_Done (history : list operation) :
  forall self, Done (_car_info self) = true ->
               Done (_car_info (perform_all history self)) = true.
Proof.
  induction history as [ | o history IH]; intros self Hd.
  - exact Hd.
  - cbn [perform_all fold_left]. apply IH. now apply perform_keeps_Done.
Qed.

(** C1, amended.  Let [Done] be true, and let any calls of [step] and
    [close] and any events follow, but no [reset].  Then [Done] is still
    true, and
    - a [step] whose action passes the two assertions (shape (2,), both
      numbers at most 1) returns, sends the neutral pulse width 1500 to the
      steering pin and to the motor pin, then captures, records signals
      equal to 0, and leaves [Done] true, whatever the numbers of the
      action;
    - a [step] whose action fails them (another shape, or a number above 1)
      raises [AssertionError] and leaves the object and the devices as they
      were, [Done] included;
    - no [step] raises otherwise than so: one that raises has changed
      nothing. *)
Theorem step_latch (self : RacingCar) (history : list operation) :
  Done (_car_info self) = true ->
  let later := perform_all history self in
  Done (_car_info later) = true
  /\ (forall action,
         shape action = [2%nat] -> data action 0%nat <= 1 -> data action 1%nat <= 1 ->
         exists final,
           step action later = (Return (observe final), final) /\
           issues later final [steer 1500; drive 1500; capture] /\
           Steering_signal (_car_info final) == 0 /\
           Motor_signal (_car_info final) == 0 /\
           Done (_car_info final) = true)
  /\ (forall action,
         shape action <> [2%nat]
         \/ (shape action = [2%nat] /\ (1 < data action 0%nat \/ 1 < data action 1%nat)) ->
         exists msg, step action later = (Raise (AssertionError msg), later))
  /\ (forall action e final, step action later = (Raise e, final) -> final = later).
Proof.
  intros Hd later.
  assert (Hl : Done (_car_info later) = true) by now apply perform_all_keeps_Done.
  split; [ exact Hl | ]. split; [ | split ].
  - intros action Hs H0 H1.
    assert (Hle : Qmax (data action 0%nat) (data action 1%nat) <= 1)
      by (apply Q.max_lub_iff; now split).
    exists (after_step 0 (0 * _motor_limitation later) later).
    split.
    { exact (step_run_terminated action later _ Hs (ndarray_max_pair action Hs) Hle Hl). }
    split; [ apply issues_after_step; unfold _SERVO_RANGE, _MOTOR_RANGE; lra | ].
    cbn. split; [ reflexivity | ]. split; [ lra | exact Hl ].
  - intros action [Hs | [Hs Hbig]].
    + eexists. now apply step_wrong_shape.
    + eexists. apply (step_wrong_value action later _ Hs (ndarray_max_pair action Hs)).
      intros Hle. apply Q.max_lub_iff in Hle. destruct Hle, Hbig; lra.
  - intros action e final. apply step_raise_unchanged.
Qed.

Lemma step_latch_witness :
  Done (_car_info crashed_car) = true /\
  let later :=
    perform_all [event 13 2 0; call_step (np_array [1; 1]); event 12 0 0] crashed_car in
  (exists final,
      step (np_array [-1; 1]) later = (Return (observe final), final) /\
      issues later final [steer 1500; drive 1500; capture] /\
      Steering_signal (_car_info final) == 0 /\
      Motor_signal (_car_info final) == 0 /\
      Done (_car_info final) = true)
  /\ exists msg,
       step (np_array [15 # 10; 0]) later = (Raise (AssertionError msg), later).
Proof.
  split; [ reflexivity | ].
  pose proof (step_latch crashed_car
                [event 13 2 0; call_step (np_array [1; 1]); event 12 0 0] eq_refl)
    as [_ [Hvalid [Hbad _]]].
  split.
  - refine (Hvalid (np_array [-1; 1]) eq_refl _ _); discriminate.
  - apply (Hbad (np_array [15 # 10; 0])). right. split; [ reflexivity | ].
    left. reflexivity.
Defined.

(** ** Validation of the action *)

(** The part of the validation that the assertions do perform: an action of
    another shape than (2,), or with a number above 1, makes [step] raise
    [AssertionError] and leaves the object and the devices as they were. *)
Lemma step_rejects (action : ndarray) (self : RacingCar) :
  shape action <> [2%nat]
  \/ (shape action = [2%nat] /\ (1 < data action 0%nat \/ 1 < data action 1%nat)) ->
  exists msg, step action self = (Raise (AssertionError msg), self).
Proof.
  intros [Hs | [Hs Hbig]].
  - eexists. now apply step_wrong_shape.
  - eexists. apply (step_wrong_value action self _ Hs (ndarray_max_pair action Hs)).
    intros Hle. apply Q.max_lub_iff in Hle. destruct Hle, Hbig; lra.
Qed.

(** C2, at the input where the code departs from it.  The action [-1.5, 0]
    has a component of magnitude above 1, and yet [step] on a fresh car does
    not raise: it records the steering signal -1.5 and sends the pulse width
    1200 to the steering pin, below the 1300 of the servo range. *)
Theorem step_accepts_magnitude_above_one :
  Qabs (data (np_array [-(15 # 10); 0]) 0%nat) == 15 # 10 /\
  exists final,
    step (np_array [-(15 # 10); 0]) fresh_car = (Return (observe final), final) /\
    Steering_signal (_car_info final) == -(15 # 10) /\
    issues fresh_car final [steer 1200; drive 1500; capture].
Proof.
  split; [ reflexivity | ].
  exists (after_step (-(15 # 10)) (0 * (6 # 10)) fresh_car).
  split; [ reflexivity | ]. split; [ reflexivity | ].
  apply issues_after_step; reflexivity.
Qed.

(** C10.  An action of shape (2,) whose largest number is at most 1 passes
    both assertions, whatever its smallest number: [step] returns.  In a
    running episode it records the first number as the steering signal and
    the second, times the limitation, as the motor signal, and sends the
    pulse widths 1500 + 200 * steering and 1500 + 500 * motor; a signal below
    -1 therefore gives a pulse width below 1500 minus the range. *)
Theorem step_bounds_from_above_only (action : ndarray) (self : RacingCar) (m : Q) :
  shape action = [2%nat] -> ndarray_max action = Return m -> m <= 1 ->
  (exists final, step action self = (Return (observe final), final))
  /\ (Done (_car_info self) = false ->
      let steering := data action 0%nat in
      let motor := data action 1%nat * _motor_limitation self in
      exists final,
        step action self = (Return (observe final), final) /\
        Steering_signal (_car_info final) = steering /\
        Motor_signal (_car_info final) = motor /\
        issues self final
          [steer (1500 + steering * 200); drive (1500 + motor * 500); capture] /\
        (steering < -1 -> 1500 + steering * 200 < 1500 - _SERVO_RANGE) /\
        (motor < -1 -> 1500 + motor * 500 < 1500 - _MOTOR_RANGE)).
Proof.
  intros Hs Hm Hle. split.
  - destruct (Done (_car_info self)) eqn:Hd.
    + eexists. exact (step_run_terminated action self m Hs Hm Hle Hd).
    + eexists. exact (step_run_active action self m Hs Hm Hle Hd).
  - intros Hd steering motor. exists (after_step steering motor self).
    split; [ exact (step_run_active action self m Hs Hm Hle Hd) | ].
    split; [ reflexivity | ]. split; [ reflexivity | ].
    split; [ apply issues_after_step; reflexivity | ].
    unfold _SERVO_RANGE, _MOTOR_RANGE. split; intros H; lra.
Qed.

Lemma step_bounds_from_above_only_witness :
  shape (np_array [-5; 0]) = [2%nat] /\
  ndarray_max (np_array [-5; 0]) = Return 0 /\
  0 <= 1 /\
  exists final,
    step (np_array [-5; 0]) fresh_car = (Return (observe final), final) /\
    Steering_signal (_car_info final) = -5 /\
    issues fresh_car final [steer (1500 + -5 * 200); drive (1500 + 0 * (6 # 10) * 500); capture] /\
    1500 + -5 * 200 < 1500 - _SERVO_RANGE.
Proof.
  assert (Hle : 0 <= 1) by discriminate.
  split; [ reflexivity | ]. split; [ reflexivity | ]. split; [ exact Hle | ].
  destruct (proj2 (step_bounds_from_above_only (np_array [-5; 0]) fresh_car 0
                     eq_refl eq_refl Hle) eq_refl)
    as [final [E [Hsteer [_ [Hissues [Hlow _]]]]]].
  exists final. split; [ exact E | ]. split; [ exact Hsteer | ].
  split; [ exact Hissues | ]. apply Hlow. reflexivity.
Defined.

(** ** The speed estimator *)

Lemma window_speed_formula (n : Z) :
  window_speed n == (inject_Z n / 512 * np_pi * (5 # 100)) / (5 # 10) * (145 / 35).
Proof.
  unfold window_speed, _ENCODER_LINE, _TIRE_DIAMETER, _SPEED_UPDATE_INTERVAL, _GEAR_RATIO.
  change (inject_Z 512) with 512. change (inject_Z 500) with 500.
  field.
Qed.

(** C3.  On a timeout of the encoder pin the handler returns, stores the
    speed (n / 512 * pi * 0.05) / 0.5 * (145 / 35) for the n pulses counted,
    0.5 being the 500 ms of the window in seconds and pi numpy's, and sets
    the pulse count to 0; with 512 pulses this is
    (512 / 512 * pi * 0.05) / 0.5 * (145 / 35). *)
Theorem encoder_timeout_speed (self : RacingCar) (tick : Z) :
  (exists final,
      _interrupt_handle _ENCODER_PUL_PIN pigpio.TIMEOUT tick self = (Return tt, final) /\
      Car_speed (_car_info final)
      == (inject_Z (_encoder_pulse_count self) / 512 * np_pi * (5 # 100))
         / (5 # 10) * (145 / 35) /\
      _encoder_pulse_count final = 0%Z)
  /\ inject_Z _SPEED_UPDATE_INTERVAL / 1000 == 5 # 10
  /\ (exists final,
         _interrupt_handle _ENCODER_PUL_PIN pigpio.TIMEOUT tick
           (with_encoder_pulse_count 512 self) = (Return tt, final) /\
         Car_speed (_car_info final)
         == (512 / 512 * np_pi * (5 # 100)) / (5 # 10) * (145 / 35) /\
         _encoder_pulse_count final = 0%Z).
Proof.
  split; [ | split; [ reflexivity | ] ].
  - eexists. split; [ apply encoder_timeout_run | ].
    split; [ apply window_speed_formula | reflexivity ].
  - eexists. split; [ apply encoder_timeout_run | ].
    split; [ apply (window_speed_formula 512) | reflexivity ].
Qed.

(** ** The reward *)

Lemma Qlt_bool_iff (x y : Q) : Qlt_bool x y = true <-> x < y.
Proof.
  unfold Qlt_bool. rewrite negb_true_iff.
  destruct (Qle_bool y x) eqn:E.
  - apply Qle_bool_iff in E. split; [ discriminate | lra ].
  - split; [ intros _ | reflexivity ].
    apply Qnot_le_lt. intros H. apply Qle_bool_iff in H. congruence.
Qed.

Lemma lap_timeout_Done (tick : Z) (self : RacingCar) :
  Reward (_car_info self) - 1 < 0 ->
  Done (_car_info (lap_marker pigpio.TIMEOUT tick self)) = true.
Proof.
  intros H. apply Qlt_bool_iff in H. unfold lap_marker.
  rewrite lap_timeout_run. cbn. rewrite H. reflexivity.
Qed.

Lemma lap_timeout_Done_kept (tick : Z) (self : RacingCar) :
  ~ Reward (_car_info self) - 1 < 0 ->
  Done (_car_info (lap_marker pigpio.TIMEOUT tick self)) = Done (_car_info self).
Proof.
  intros H. unfold lap_marker. rewrite lap_timeout_run. cbn.
  destruct (Qlt_bool (Reward (_car_info self) - 1) 0) eqn:E; [ | reflexivity ].
  apply Qlt_bool_iff in E. contradiction.
Qed.

Lemma lap_timeout_Reward (tick : Z) (self : RacingCar) :
  Reward (_car_info (lap_marker pigpio.TIMEOUT tick self)) = Reward (_car_info self) - 1.
Proof. unfold lap_marker. rewrite lap_timeout_run. reflexivity. Qed.

Lemma lap_rising_Reward (tick : Z) (self : RacingCar) :
  Reward (_car_info (lap_marker pigpio.RISING_EDGE tick self)) = Reward (_car_info self) + 5.
Proof. unfold lap_marker. rewrite lap_rising_run. reflexivity. Qed.

(** C4, at the event where the code departs from it.  A rising edge of the
    lap marker reaches the handler with the level 1, which is not the
    selector [pigpio.RISING_EDGE] (0) that line 173 compares it with: the
    handler returns with the reward, and the whole object, as it was, where
    5 should have been added.  A rising edge followed by a timeout thus
    changes the reward by -1 and not by +4.  The timeout arrives with the
    level [pigpio.TIMEOUT] that line 176 tests. *)
Theorem lap_marker_rising_edge_unrewarded (self : RacingCar) (t1 t2 : Z) :
  callback_level to_high <> pigpio.RISING_EDGE
  /\ callback_level watchdog = pigpio.TIMEOUT
  /\ _interrupt_handle _ENCODER_ZERO_PIN (callback_level to_high) t1 self
     = (Return tt, self)
  /\ Reward (_car_info (lap_marker (callback_level to_high) t1 self))
     = Reward (_car_info self)
  /\ Reward (_car_info (lap_marker (callback_level watchdog) t2
                          (lap_marker (callback_level to_high) t1 self)))
     = Reward (_car_info self) - 1.
Proof.
  assert (E : _interrupt_handle _ENCODER_ZERO_PIN (callback_level to_high) t1 self
              = (Return tt, self))
    by (apply lap_other_level; discriminate).
  split; [ discriminate | ]. split; [ reflexivity | ]. split; [ exact E | ].
  unfold lap_marker. rewrite E. cbn [snd]. split; [ reflexivity | ].
  change (callback_level watchdog) with pigpio.TIMEOUT.
  apply lap_timeout_Reward.
Qed.

(** The handler on the lap marker pin at the two levels it compares with.
    At the level [pigpio.RISING_EDGE] (0) it adds 5 to the reward and changes
    nothing else; at the level [pigpio.TIMEOUT] it subtracts 1 and, when the
    new reward is below 0, sets [Done], else leaves it.  The first followed
    by the second changes the reward by 4, and three timeouts from the
    reward 0 leave it at -3, with [Done] set by the first of them. *)
Theorem lap_marker_reward (self : RacingCar) (t1 t2 t3 : Z) :
  let info := _car_info self in
  let zeroed := with_car_info (with_Reward 0 info) self in
  (forall level, fst (_interrupt_handle _ENCODER_ZERO_PIN level t1 self) = Return tt)
  /\ lap_marker pigpio.RISING_EDGE t1 self
     = with_car_info (with_Reward (Reward info + 5) info) self
  /\ Reward (_car_info (lap_marker pigpio.TIMEOUT t1 self)) = Reward info - 1
  /\ (Reward info - 1 < 0 -> Done (_car_info (lap_marker pigpio.TIMEOUT t1 self)) = true)
  /\ (~ Reward info - 1 < 0 ->
      Done (_car_info (lap_marker pigpio.TIMEOUT t1 self)) = Done info)
  /\ Reward (_car_info (lap_marker pigpio.TIMEOUT t2 (lap_marker pigpio.RISING_EDGE t1 self)))
     == Reward info + 4
  /\ Reward (_car_info (lap_marker pigpio.TIMEOUT t1 zeroed)) == -1
  /\ Done (_car_info (lap_marker pigpio.TIMEOUT t1 zeroed)) = true
  /\ Reward (_car_info (lap_marker pigpio.TIMEOUT t3
                          (lap_marker pigpio.TIMEOUT t2
                             (lap_marker pigpio.TIMEOUT t1 zeroed)))) == -3
  /\ Done (_car_info (lap_marker pigpio.TIMEOUT t3
                        (lap_marker pigpio.TIMEOUT t2
                           (lap_marker pigpio.TIMEOUT t1 zeroed)))) = true.
Proof.
  intros info zeroed. repeat match goal with |- _ /\ _ => split end.
  - intros level. apply _interrupt_handle_returns.
  - unfold lap_marker. rewrite lap_rising_run. reflexivity.
  - apply lap_timeout_Reward.
  - apply lap_timeout_Done.
  - apply lap_timeout_Done_kept.
  - rewrite lap_timeout_Reward, lap_rising_Reward. fold info. lra.
  - rewrite lap_timeout_Reward. reflexivity.
  - apply lap_timeout_Done. reflexivity.
  - rewrite !lap_timeout_Reward. reflexivity.
  - apply lap_timeout_Done. rewrite !lap_timeout_Reward. reflexivity.
Qed.

(** ** Reset *)

(** C5.  From every state [reset] returns: it sends the neutral pulse width
    1500 to the steering pin and to the motor pin, captures a frame, and
    leaves the dictionary with signals, reward and speed 0 and [Done] false;
    it returns the frame captured, the reward 0, [Done] false and that
    dictionary. *)
Theorem reset_postcondition (self : RacingCar) :
  exists final,
    reset self = (Return (_image final, 0, false, _car_info final), final) /\
    issues self final [steer 1500; drive 1500; capture] /\
    _image final = scene (_cam self) (shots (_cam self)) /\
    _car_info final
    = {| Steering_signal := 0; Motor_signal := 0; Reward := 0; Car_speed := 0;
         Done := false |}.
Proof.
  exists (after_reset self).
  split; [ apply reset_run | ].
  split; [ apply issues_after_reset | ].
  split; reflexivity.
Qed.

(** The pulse count after each method. *)
Lemma reset_pulse_count (self : RacingCar) :
  _encoder_pulse_count (snd (reset self)) = _encoder_pulse_count self.
Proof. rewrite reset_run. reflexivity. Qed.

Lemma step_pulse_count (action : ndarray) (self : RacingCar) :
  _encoder_pulse_count (snd (step action self)) = _encoder_pulse_count self.
Proof.
  destruct (step_cases action self)
    as [[_ E] | [[_ [_ E]] | [_ [_ [s [m [E _]]]]]]]; rewrite E; reflexivity.
Qed.

Lemma close_pulse_count (self : RacingCar) :
  _encoder_pulse_count (snd (close self)) = _encoder_pulse_count self.
Proof. rewrite close_run. reflexivity. Qed.

Lemma _interrupt_handle_pulse_count (gpio level tick : Z) (self : RacingCar) :
  ~ (gpio = _ENCODER_PUL_PIN /\ level = pigpio.TIMEOUT) ->
  let count := _encoder_pulse_count (snd (_interrupt_handle gpio level tick self)) in
  count = _encoder_pulse_count self \/ count = (_encoder_pulse_count self + 1)%Z.
Proof.
  intros Hnot count. subst count.
  destruct (_interrupt_handle_cases gpio level tick self)
    as [[_ E] | [[_ [_ E]] | [[Hg [Hl _]] | [[_ [_ E]] | [[_ [_ [d [E _]]]] | E]]]]];
    try (rewrite E; cbn; auto; fail).
  exfalso. apply Hnot. now split.
Qed.

(** C6.  [reset] leaves the pulse count as it was, so that the timeout of
    the encoder that follows a [reset] stores the speed of the pulses counted
    before it.  Nor does any other method clear the count: [step] and [close]
    leave it, and an event other than the timeout of the encoder leaves it or
    adds 1. *)
Theorem reset_keeps_pulse_count (self : RacingCar) :
  _encoder_pulse_count (snd (reset self)) = _encoder_pulse_count self
  /\ (forall tick,
         let later := snd (_interrupt_handle _ENCODER_PUL_PIN pigpio.TIMEOUT tick
                             (snd (reset self))) in
         Car_speed (_car_info later) = window_speed (_encoder_pulse_count self) /\
         Car_speed (_car_info later)
         == (inject_Z (_encoder_pulse_count self) / 512 * np_pi * (5 # 100))
            / (5 # 10) * (145 / 35) /\
         _encoder_pulse_count later = 0%Z)
  /\ (forall action,
         _encoder_pulse_count (snd (step action self)) = _encoder_pulse_count self)
  /\ _encoder_pulse_count (snd (close self)) = _encoder_pulse_count self
  /\ (forall gpio level tick,
         ~ (gpio = _ENCODER_PUL_PIN /\ level = pigpio.TIMEOUT) ->
         let count := _encoder_pulse_count (snd (_interrupt_handle gpio level tick self)) in
         count = _encoder_pulse_count self \/ count = (_encoder_pulse_count self + 1)%Z).
Proof.
  repeat match goal with |- _ /\ _ => split end.
  - apply reset_pulse_count.
  - intros tick later. subst later.
    rewrite encoder_timeout_run, reset_run. cbn [snd].
    split; [ reflexivity | ]. split; [ | reflexivity ].
    apply window_speed_formula.
  - intros action. apply step_pulse_count.
  - apply close_pulse_count.
  - intros gpio level tick. apply _interrupt_handle_pulse_count.
Qed.

(** ** Events without a meaning *)

(** C9.  An event on a pin that is none of the two line sensors, the encoder
    and the lap marker, and an event on the encoder or the lap marker whose
    level is neither the rising edge nor the timeout, make the handler return
    with the object, dictionary and pulse count included, as it was.  (The
    line sensors react to every level.) *)
Theorem spurious_event_ignored (gpio level tick : Z) (self : RacingCar) :
  (gpio <> _LEFT_LINE_SENSOR_PIN /\ gpio <> _RIGHT_LINE_SENSOR_PIN /\
   gpio <> _ENCODER_PUL_PIN /\ gpio <> _ENCODER_ZERO_PIN)
  \/ ((gpio = _ENCODER_PUL_PIN \/ gpio = _ENCODER_ZERO_PIN) /\
      level <> pigpio.RISING_EDGE /\ level <> pigpio.TIMEOUT) ->
  _interrupt_handle gpio level tick self = (Return tt, self).
Proof.
  intros [[Hl [Hr [Hp Hz]]] | [[-> | ->] [Hr Ht]]].
  - now apply other_pin.
  - now apply encoder_other_level.
  - now apply lap_other_level.
Qed.

Lemma spurious_event_ignored_witness :
  ((12 = _ENCODER_PUL_PIN \/ 12 = _ENCODER_ZERO_PIN) /\
   1 <> pigpio.RISING_EDGE /\ 1 <> pigpio.TIMEOUT)%Z /\
  _interrupt_handle 12 1 0 fresh_car = (Return tt, fresh_car).
Proof.
  assert (H : ((12 = _ENCODER_PUL_PIN \/ 12 = _ENCODER_ZERO_PIN) /\
               1 <> pigpio.RISING_EDGE /\ 1 <> pigpio.TIMEOUT)%Z).
  { split; [ left; reflexivity | ]. split; discriminate. }
  split; [ exact H | ].
  exact (spurious_event_ignored 12 1 0 fresh_car (or_intror H)).
Defined.

(** * Further properties of the code *)

(** ** The constructor *)


(** The sample action is [scale_range] on each element of the sample. *)
Lemma sample_action_scale_range (sample : ndarray) (i : nat) :
  scale_range (data sample i) 0 1 (-1) 1 = Return (data (sample_action sample) i).
Proof. reflexivity. Qed.

Lemma sample_action_affine (sample : ndarray) (i : nat) :
  data (sample_action sample) i == 2 * data sample i - 1.
Proof. cbn [sample_action data]. field. Qed.

(** X2.  The sample action that [__init__] prepares from a random array of
    shape (2,) with elements in [0, 1) has shape (2,) and elements in
    [-1, 1), and [step] accepts it on every car. *)
Theorem sample_action_accepted (sample : ndarray) (self : RacingCar) :
  shape sample = [2%nat] ->
  (forall i, (i < 2)%nat -> 0 <= data sample i /\ data sample i < 1) ->
  shape (sample_action sample) = [2%nat]
  /\ (forall i, (i < 2)%nat ->
                -1 <= data (sample_action sample) i /\ data (sample_action sample) i < 1)
  /\ exists final,
       step (sample_action sample) self = (Return (observe final), final).
Proof.
  intros Hs Hr.
  assert (Hb : forall i, (i < 2)%nat ->
                 -1 <= data (sample_action sample) i /\ data (sample_action sample) i < 1).
  { intros i Hi. destruct (Hr i Hi) as [H0 H1].
    rewrite sample_action_affine. split; lra. }
  split; [ exact Hs | ]. split; [ exact Hb | ].
  assert (Hm : ndarray_max (sample_action sample)
               = Return (Qmax (data (sample_action sample) 0%nat)
                              (data (sample_action sample) 1%nat)))
    by (apply ndarray_max_pair; exact Hs).
  assert (Hle : Qmax (data (sample_action sample) 0%nat)
                     (data (sample_action sample) 1%nat) <= 1).
  { apply Q.max_lub_iff.
    destruct (Hb 0%nat) as [_ H0]; [ lia | ].
    destruct (Hb 1%nat) as [_ H1]; [ lia | ]. split; lra. }
  destruct (Done (_car_info self)) eqn:Hd.
  - eexists. exact (step_run_terminated (sample_action sample) self _ Hs Hm Hle Hd).
  - eexists. exact (step_run_active (sample_action sample) self _ Hs Hm Hle Hd).
Qed.

Lemma sample_action_accepted_witness :
  shape (np_array [0; 1 # 2]) = [2%nat] /\
  exists final,
    step (sample_action (np_array [0; 1 # 2])) fresh_car = (Return (observe final), final).
Proof.
  split; [ reflexivity | ].
  refine (proj2 (proj2 (sample_action_accepted (np_array [0; 1 # 2]) fresh_car eq_refl _))).
  intros i Hi.
  destruct i as [ | [ | i]]; [ split; [ discriminate | reflexivity ]
                             | split; [ discriminate | reflexivity ]
                             | lia ].
Defined.

(** ** The signal scaler, there and back *)

Lemma affine_round_trip (a b c d v : Q) :
  ~ a == b -> ~ c == d ->
  ((v - a) / (b - a) * (d - c) + c - c) / (d - c) * (b - a) + a == v.
Proof.
  intros Hab Hcd. field. split; intros E; [ apply Hab | apply Hcd ]; lra.
Qed.

(** X3.  Between two ranges of distinct bounds, in exact arithmetic,
    [scale_range] from the first to the second followed by [scale_range]
    from the second back to the first returns the value it started from. *)
Theorem scale_range_round_trip (v old_min old_max new_min new_max : Q) :
  ~ old_min == old_max -> ~ new_min == new_max ->
  exists there back,
    scale_range v old_min old_max new_min new_max = Return there /\
    scale_range there new_min new_max old_min old_max = Return back /\
    back == v.
Proof.
  intros Hold Hnew. do 2 eexists.
  split; [ apply (scale_range_defined _ _ _ _ _ Hold) | ].
  split; [ apply (scale_range_defined _ _ _ _ _ Hnew) | ].
  now apply affine_round_trip.
Qed.

Lemma scale_range_round_trip_witness :
  ~ -1 == 1 /\ ~ 1300 == 1700 /\
  exists there back,
    scale_range (1 # 2) (-1) 1 1300 1700 = Return there /\
    scale_range there 1300 1700 (-1) 1 = Return back /\
    back == 1 # 2.
Proof.
  assert (H1 : ~ -1 == 1) by (intros E; discriminate E).
  assert (H2 : ~ 1300 == 1700) by (intros E; discriminate E).
  split; [ exact H1 | ]. split; [ exact H2 | ].
  exact (scale_range_round_trip (1 # 2) (-1) 1 1300 1700 H1 H2).
Defined.

(** ** What [step] checks, keeps and commands *)

(** X4.  [step] returns exactly when its action has shape (2,) and both
    numbers at most 1.  Otherwise it raises [AssertionError] and leaves the
    object and the devices as they were; the shape is judged first, so an
    action of another shape gets the message of the shape whatever its
    numbers. *)
Theorem step_returns_iff (action : ndarray) (self : RacingCar) :
  ((exists obs final, step action self = (Return obs, final))
   <-> (shape action = [2%nat] /\ data action 0%nat <= 1 /\ data action 1%nat <= 1))
  /\ (shape action <> [2%nat] ->
      step action self = (Raise (AssertionError "Incorrect input shape."), self))
  /\ (shape action = [2%nat] -> (1 < data action 0%nat \/ 1 < data action 1%nat) ->
      step action self = (Raise (AssertionError "Incorrect input value."), self)).
Proof.
  split; [ | split ].
  - destruct (step_cases action self)
      as [[Hs E] | [[Hs [Hgt E]] | [Hs [Hle [s [m [E _]]]]]]].
    + split.
      * intros [obs [final H]]. rewrite E in H. discriminate H.
      * intros [Hs' _]. contradiction.
    + split.
      * intros [obs [final H]]. rewrite E in H. discriminate H.
      * intros [_ [H0 H1]]. exfalso. apply Hgt. apply Q.max_lub_iff. now split.
    + split.
      * intros _. apply Q.max_lub_iff in Hle. destruct Hle. now repeat split.
      * intros _. do 2 eexists. exact E.
  - apply step_wrong_shape.
  - intros Hs Hbig.
    apply (step_wrong_value action self _ Hs (ndarray_max_pair action Hs)).
    intros Hle. apply Q.max_lub_iff in Hle. destruct Hle, Hbig; lra.
Qed.

(** X5.  [step] never changes the reward, the speed, [Done], the pulse count
    or the limitation, whether it returns or raises; and the reward, [Done]
    and dictionary it returns are those of the object after the call, the
    reward and [Done] being those of before it, with the frame the camera
    has just captured. *)
Theorem step_keeps_telemetry (action : ndarray) (self : RacingCar) :
  let final := snd (step action self) in
  Reward (_car_info final) = Reward (_car_info self)
  /\ Car_speed (_car_info final) = Car_speed (_car_info self)
  /\ Done (_car_info final) = Done (_car_info self)
  /\ _encoder_pulse_count final = _encoder_pulse_count self
  /\ _motor_limitation final = _motor_limitation self
  /\ (forall image reward done info,
         fst (step action self) = Return (image, reward, done, info) ->
         image = scene (_cam self) (shots (_cam self)) /\
         reward = Reward (_car_info self) /\
         done = Done (_car_info self) /\
         info = _car_info final /\
         shots (_cam final) = S (shots (_cam self))).
Proof.
  intros final. subst final.
  destruct (step_cases action self)
    as [[_ E] | [[_ [_ E]] | [_ [_ [s [m [E _]]]]]]]; rewrite E; cbn [fst snd].
  - repeat match goal with |- _ /\ _ => split end; try reflexivity.
    intros image reward done info H. discriminate H.
  - repeat match goal with |- _ /\ _ => split end; try reflexivity.
    intros image reward done info H. discriminate H.
  - repeat match goal with |- _ /\ _ => split end; try reflexivity.
    intros image reward done info H. injection H as <- <- <- <-.
    repeat split.
Qed.

(** X6.  The limitation bounds the throttle.  In a running episode, with a
    limitation between 0 and 1 and an action of two numbers between -1 and
    1, [step] returns and sends to the steering pin a pulse width between
    1300 and 1700 and to the motor pin one between 1500 - 500 * limitation
    and 1500 + 500 * limitation, hence between 1000 and 2000; then it
    captures. *)
Theorem step_pulsewidths_bounded (action : ndarray) (self : RacingCar) :
  shape action = [2%nat] ->
  -1 <= data action 0%nat /\ data action 0%nat <= 1 ->
  -1 <= data action 1%nat /\ data action 1%nat <= 1 ->
  0 <= _motor_limitation self /\ _motor_limitation self <= 1 ->
  Done (_car_info self) = false ->
  exists final ps pm,
    step action self = (Return (observe final), final) /\
    calls final
    = calls self ++ [set_servo_pulsewidth _STEERING_SERVO_PIN ps;
                     set_servo_pulsewidth _MOTOR_PIN pm; capture] /\
    1300 <= ps /\ ps <= 1700 /\
    1500 - 500 * _motor_limitation self <= pm /\
    pm <= 1500 + 500 * _motor_limitation self /\
    1000 <= pm /\ pm <= 2000.
Proof.
  intros Hs [Hs0 Hs1] [Hm0 Hm1] [Hl0 Hl1] Hd.
  set (lim := _motor_limitation self) in *.
  set (a0 := data action 0%nat) in *. set (a1 := data action 1%nat) in *.
  assert (Hle : Qmax a0 a1 <= 1) by (apply Q.max_lub_iff; now split).
  exists (after_step a0 (a1 * lim) self),
    (pulsewidth a0 _SERVO_RANGE), (pulsewidth (a1 * lim) _MOTOR_RANGE).
  split.
  { exact (step_run_active action self _ Hs (ndarray_max_pair action Hs) Hle Hd). }
  split.
  { unfold after_step. run. rewrite <- app_assoc. reflexivity. }
  rewrite !pulsewidth_affine. unfold _SERVO_RANGE, _MOTOR_RANGE.
  assert (Hup : 0 <= (1 - a1) * lim) by (apply Qmult_le_0_compat; lra).
  assert (Hdn : 0 <= (a1 + 1) * lim) by (apply Qmult_le_0_compat; lra).
  repeat match goal with |- _ /\ _ => split end; lra.
Qed.

Lemma step_pulsewidths_bounded_witness :
  Done (_car_info fresh_car) = false /\
  exists final ps pm,
    step (np_array [-1; 1]) fresh_car = (Return (observe final), final) /\
    calls final
    = calls fresh_car ++ [set_servo_pulsewidth _STEERING_SERVO_PIN ps;
                          set_servo_pulsewidth _MOTOR_PIN pm; capture] /\
    1300 <= ps /\ ps <= 1700 /\
    1500 - 500 * (6 # 10) <= pm /\ pm <= 1500 + 500 * (6 # 10) /\
    1000 <= pm /\ pm <= 2000.
Proof.
  split; [ reflexivity | ].
  refine (step_pulsewidths_bounded (np_array [-1; 1]) fresh_car eq_refl _ _ _ eq_refl);
    split; discriminate.
Defined.

(** ** What the handler leaves alone *)

(** X7.  Whatever the pin and the level, the handler returns, makes no call
    on the devices, and leaves the commanded signals, the image, the camera
    and the limitation as they were: an event changes at most the reward,
    the speed, [Done] and the pulse count. *)
Theorem _interrupt_handle_frame (gpio level tick : Z) (self : RacingCar) :
  let final := snd (_interrupt_handle gpio level tick self) in
  fst (_interrupt_handle gpio level tick self) = Return tt
  /\ calls final = calls self
  /\ Steering_signal (_car_info final) = Steering_signal (_car_info self)
  /\ Motor_signal (_car_info final) = Motor_signal (_car_info self)
  /\ _image final = _image self
  /\ _cam final = _cam self
  /\ _motor_limitation final = _motor_limitation self.
Proof.
  intros final. subst final.
  destruct (_interrupt_handle_cases gpio level tick self)
    as [[_ E] | [[_ [_ E]] | [[_ [_ E]] | [[_ [_ E]] | [[_ [_ [d [E _]]]] | E]]]]];
    rewrite E; repeat split.
Qed.

(** X8.  An event on either line sensor pin ends the episode at every level,
    the timeout included: the handler returns with [Done] true and the
    reward, the speed, the signals and the pulse count as they were; and the
    next [step] whose action passes the assertions sends the neutral pulse
    width 1500 to both pins. *)
Theorem line_sensor_ends_episode (gpio level tick : Z) (self : RacingCar) :
  gpio = _LEFT_LINE_SENSOR_PIN \/ gpio = _RIGHT_LINE_SENSOR_PIN ->
  exists stopped,
    _interrupt_handle gpio level tick self = (Return tt, stopped) /\
    Done (_car_info stopped) = true /\
    Reward (_car_info stopped) = Reward (_car_info self) /\
    Car_speed (_car_info stopped) = Car_speed (_car_info self) /\
    Steering_signal (_car_info stopped) = Steering_signal (_car_info self) /\
    Motor_signal (_car_info stopped) = Motor_signal (_car_info self) /\
    _encoder_pulse_count stopped = _encoder_pulse_count self /\
    (forall action m,
        shape action = [2%nat] -> ndarray_max action = Return m -> m <= 1 ->
        exists final,
          step action stopped = (Return (observe final), final) /\
          issues stopped final [steer 1500; drive 1500; capture]).
Proof.
  intros Hg. eexists. split; [ now apply line_sensor_run | ].
  repeat match goal with |- _ /\ _ => split end; try reflexivity.
  intros action m Hs Hm Hle. eexists.
  split.
  - exact (step_run_terminated action
             (with_car_info (with_Done true (_car_info self)) self) m Hs Hm Hle eq_refl).
  - apply issues_after_step; unfold _SERVO_RANGE, _MOTOR_RANGE; cbn; lra.
Qed.

Lemma line_sensor_ends_episode_witness :
  (2 = _LEFT_LINE_SENSOR_PIN \/ 2 = _RIGHT_LINE_SENSOR_PIN)%Z /\
  exists stopped,
    _interrupt_handle 2 pigpio.TIMEOUT 0 fresh_car = (Return tt, stopped) /\
    Done (_car_info stopped) = true.
Proof.
  assert (H : (2 = _LEFT_LINE_SENSOR_PIN \/ 2 = _RIGHT_LINE_SENSOR_PIN)%Z)
    by (right; reflexivity).
  split; [ exact H | ].
  destruct (line_sensor_ends_episode 2 pigpio.TIMEOUT 0 fresh_car H)
    as [stopped [E [Hd _]]].
  exists stopped. split; [ exact E | exact Hd ].
Defined.

(** ** A window of the encoder *)

Lemma window_speed_linear (n : Z) : window_speed n == inject_Z n * window_speed 1.
Proof.
  unfold window_speed, _ENCODER_LINE, _TIRE_DIAMETER, _SPEED_UPDATE_INTERVAL, _GEAR_RATIO.
  change (inject_Z 512) with 512. change (inject_Z 500) with 500.
  change (inject_Z 1) with 1. field.
Qed.

Lemma window_speed_unit : 0 < window_speed 1.
Proof. reflexivity. Qed.

(** X10.  The speed a timeout of the encoder stores is proportional to the
    pulse count, with a positive speed per pulse: it is 0 for no pulse,
    never negative for a count that is not, and grows with the count. *)
Theorem encoder_speed_proportional (tick : Z) (self other : RacingCar) :
  let speed_of car :=
    Car_speed (_car_info (snd (_interrupt_handle _ENCODER_PUL_PIN pigpio.TIMEOUT tick car))) in
  let per_pulse := (1 / 512 * np_pi * (5 # 100)) / (5 # 10) * (145 / 35) in
  0 < per_pulse
  /\ speed_of self == inject_Z (_encoder_pulse_count self) * per_pulse
  /\ (_encoder_pulse_count self = 0%Z -> speed_of self == 0)
  /\ ((0 <= _encoder_pulse_count self)%Z -> 0 <= speed_of self)
  /\ ((_encoder_pulse_count self <= _encoder_pulse_count other)%Z ->
      speed_of self <= speed_of other).
Proof.
  intros speed_of per_pulse.
  assert (Hu : per_pulse == window_speed 1)
    by (symmetry; apply (window_speed_formula 1)).
  assert (Hpos : 0 < per_pulse) by (rewrite Hu; apply window_speed_unit).
  assert (Hs : forall car, speed_of car == inject_Z (_encoder_pulse_count car) * per_pulse).
  { intros car. subst speed_of. cbv beta. rewrite encoder_timeout_run. cbn.
    rewrite window_speed_linear, Hu. reflexivity. }
  split; [ exact Hpos | ]. split; [ apply Hs | ]. split; [ | split ].
  - intros H0. rewrite Hs, H0. change (inject_Z 0) with 0. lra.
  - intros H0. rewrite Hs. apply Qmult_le_0_compat; [ | lra ].
    change 0 with (inject_Z 0). now rewrite <- Zle_Qle.
  - intros Hle. rewrite !Hs. apply Qmult_le_compat_r; [ | lra ].
    now rewrite <- Zle_Qle.
Qed.

(** ** Invariants of the telemetry *)

Lemma serve_all_invariant (P : RacingCar -> Prop) :
  (forall r car, P car -> P (serve r car)) ->
  forall requests car, P car -> P (serve_all requests car).
Proof.
  intros Hstep requests.
  induction requests as [ | r requests IH]; intros car Hcar.
  - exact Hcar.
  - cbn [serve_all fold_left]. apply IH. now apply Hstep.
Qed.

(** What [__init__] returns, when it returns. *)
Lemma __init___returned (motor_limitation : Q) (cam : PiCamera) (car : RacingCar) :
  __init__ motor_limitation cam = Return car ->
  motor_limitation <= 1 /\
  _motor_limitation car = motor_limitation /\
  _car_info car = zero_info /\
  _encoder_pulse_count car = 0%Z.
Proof.
  unfold __init__.
  destruct (Qle_bool motor_limitation 1) eqn:E; cbn [negb]; [ | discriminate ].
  apply Qle_bool_iff in E. intros H.
  unfold _update_pwm in H. rewrite !scale_range_pulsewidth in H.
  cbv beta iota zeta delta [bind lift issue get put after_calls] in H.
  cbn [_motor_limitation _car_info _encoder_pulse_count _image _cam calls] in H.
  injection H as <-. repeat split. exact E.
Qed.

(** The dictionary and the pulse count after a [step], returned or raised. *)
Lemma step_telemetry (action : ndarray) (self : RacingCar) :
  Reward (_car_info (snd (step action self))) = Reward (_car_info self)
  /\ Car_speed (_car_info (snd (step action self))) = Car_speed (_car_info self)
  /\ Done (_car_info (snd (step action self))) = Done (_car_info self)
  /\ _encoder_pulse_count (snd (step action self)) = _encoder_pulse_count self.
Proof.
  destruct (step_cases action self)
    as [[_ E] | [[_ [_ E]] | [_ [_ [s [m [E _]]]]]]]; rewrite E; repeat split.
Qed.

Lemma window_speed_nonneg (n : Z) : (0 <= n)%Z -> 0 <= window_speed n.
Proof.
  intros H. rewrite window_speed_linear.
  apply Qmult_le_0_compat; [ | apply Qlt_le_weak, window_speed_unit ].
  change 0 with (inject_Z 0). now rewrite <- Zle_Qle.
Qed.

Lemma serve_keeps_nonneg (r : request) (car : RacingCar) :
  (0 <= _encoder_pulse_count car)%Z /\ 0 <= Car_speed (_car_info car) ->
  (0 <= _encoder_pulse_count (serve r car))%Z /\ 0 <= Car_speed (_car_info (serve r car)).
Proof.
  intros [Hc Hv]. destruct r as [ | [action | | gpio level tick]]; cbn [serve perform].
  - rewrite reset_run. cbn. split; [ exact Hc | apply Qle_refl ].
  - destruct (step_telemetry action car) as [_ [Es [_ Ec]]]. rewrite Es, Ec. now split.
  - rewrite close_run. now split.
  - destruct (_interrupt_handle_cases gpio level tick car)
      as [[_ E] | [[_ [_ E]] | [[_ [_ E]] | [[_ [_ E]] | [[_ [_ [d [E _]]]] | E]]]]];
      rewrite E; cbn; try (split; [ assumption || lia | assumption ]).
    split; [ lia | now apply window_speed_nonneg ].
Qed.

(** X11.  On a car built by [__init__], after any calls of [reset], [step]
    and [close] and any events in any order, the pulse count is not negative
    and neither is the speed. *)
Theorem count_and_speed_never_negative
    (motor_limitation : Q) (cam : PiCamera) (car : RacingCar) (requests : list request) :
  __init__ motor_limitation cam = Return car ->
  (0 <= _encoder_pulse_count (serve_all requests car))%Z
  /\ 0 <= Car_speed (_car_info (serve_all requests car)).
Proof.
  intros H. destruct (__init___returned _ _ _ H) as [_ [_ [Hi Hc]]].
  apply (serve_all_invariant
           (fun c => (0 <= _encoder_pulse_count c)%Z /\ 0 <= Car_speed (_car_info c))).
  - apply serve_keeps_nonneg.
  - rewrite Hi, Hc. split; [ lia | apply Qle_refl ].
Qed.

Lemma count_and_speed_never_negative_witness :
  __init__ (6 # 10) still_camera = Return fresh_car /\
  let later :=
    serve_all [within_episode (event 12 0 0); within_episode (event 12 0 1);
               within_episode (event 12 2 2); call_reset;
               within_episode (event 12 0 3)] fresh_car in
  (0 <= _encoder_pulse_count later)%Z /\ 0 <= Car_speed (_car_info later).
Proof.
  split; [ reflexivity | ].
  exact (count_and_speed_never_negative (6 # 10) still_camera fresh_car _ eq_refl).
Defined.

Lemma serve_keeps_negative_reward_done (r : request) (car : RacingCar) :
  (Reward (_car_info car) < 0 -> Done (_car_info car) = true) ->
  Reward (_car_info (serve r car)) < 0 -> Done (_car_info (serve r car)) = true.
Proof.
  intros Hinv. destruct r as [ | [action | | gpio level tick]]; cbn [serve perform].
  - rewrite reset_run. cbn. intros H. discriminate H.
  - destruct (step_telemetry action car) as [Er [_ [Ed _]]]. rewrite Er, Ed. exact Hinv.
  - rewrite close_run. exact Hinv.
  - destruct (_interrupt_handle_cases gpio level tick car)
      as [[_ E] | [[_ [_ E]] | [[_ [_ E]] | [[_ [_ E]] | [[Hg [Hl _]] | E]]]]].
    + rewrite E. reflexivity.
    + rewrite E. exact Hinv.
    + rewrite E. exact Hinv.
    + rewrite E. cbn. intros H. apply Hinv. lra.
    + subst gpio level. rewrite lap_timeout_run. cbn. intros H.
      apply Qlt_bool_iff in H. rewrite H. reflexivity.
    + rewrite E. exact Hinv.
Qed.

(** X12.  On a car built by [__init__], after any calls of [reset], [step]
    and [close] and any events in any order, a reward below 0 is never seen
    without [Done]: whenever the reward is negative, [Done] is true. *)
Theorem negative_reward_means_Done
    (motor_limitation : Q) (cam : PiCamera) (car : RacingCar) (requests : list request) :
  __init__ motor_limitation cam = Return car ->
  Reward (_car_info (serve_all requests car)) < 0 ->
  Done (_car_info (serve_all requests car)) = true.
Proof.
  intros H. destruct (__init___returned _ _ _ H) as [_ [_ [Hi _]]].
  apply (serve_all_invariant
           (fun c => Reward (_car_info c) < 0 -> Done (_car_info c) = true)).
  - apply serve_keeps_negative_reward_done.
  - rewrite Hi. cbn. intros Hneg. discriminate Hneg.
Qed.

Lemma negative_reward_means_Done_witness :
  __init__ (6 # 10) still_camera = Return fresh_car /\
  let later :=
    serve_all [within_episode (event 13 0 0); call_reset;
               within_episode (event 13 2 1); within_episode (event 13 2 2)] fresh_car in
  Reward (_car_info later) < 0 /\ Done (_car_info later) = true.
Proof.
  split; [ reflexivity | ].
  assert (Hneg : Reward (_car_info
                   (serve_all [within_episode (event 13 0 0); call_reset;
                               within_episode (event 13 2 1);
                               within_episode (event 13 2 2)] fresh_car)) < 0)
    by reflexivity.
  split; [ exact Hneg | ].
  exact (negative_reward_means_Done (6 # 10) still_camera fresh_car _ eq_refl Hneg).
Defined.

(** ** Edges as pigpio delivers them *)

Lemma serve_all_delivered_invariant (P : RacingCar -> Prop) :
  (forall r car, delivered r -> P car -> P (serve r car)) ->
  forall requests car, Forall delivered requests -> P car -> P (serve_all requests car).
Proof.
  intros Hstep requests.
  induction requests as [ | r requests IH]; intros car Hall Hcar.
  - exact Hcar.
  - inversion Hall as [ | r' requests' Hr Hrest ]; subst.
    cbn [serve_all fold_left]. apply IH; [ exact Hrest | ]. now apply Hstep.
Qed.

Lemma window_speed_zero : window_speed 0 == 0.
Proof. reflexivity. Qed.

Lemma serve_delivered_counts_nothing (r : request) (car : RacingCar) :
  delivered r ->
  _encoder_pulse_count car = 0%Z /\ Car_speed (_car_info car) == 0 /\
  Reward (_car_info car) <= 0 ->
  _encoder_pulse_count (serve r car) = 0%Z /\
  Car_speed (_car_info (serve r car)) == 0 /\
  Reward (_car_info (serve r car)) <= 0.
Proof.
  intros Hr [Hc [Hv Hw]].
  destruct r as [ | [action | | gpio level tick]]; cbn [serve perform].
  - rewrite reset_run. cbn. split; [ exact Hc | ]. split; [ reflexivity | apply Qle_refl ].
  - destruct (step_telemetry action car) as [Er [Es [_ Ec]]].
    rewrite Er, Es, Ec. now repeat split.
  - rewrite close_run. now repeat split.
  - cbn [delivered] in Hr.
    assert (Hlevel : level <> pigpio.RISING_EDGE)
      by (destruct Hr as [-> | ->]; discriminate).
    destruct (_interrupt_handle_cases gpio level tick car)
      as [[_ E] | [[_ [Hl _]] | [[_ [_ E]] | [[_ [Hl _]] | [[_ [_ [d [E _]]]] | E]]]]];
      try contradiction; rewrite E; cbn.
    + now repeat split.
    + rewrite Hc. split; [ reflexivity | ]. split; [ apply window_speed_zero | exact Hw ].
    + split; [ exact Hc | ]. split; [ exact Hv | lra ].
    + now repeat split.
Qed.

(** X9.  With the levels pigpio passes to the callbacks of [__init__] (1 for
    a rising edge, 2 for a watchdog timeout), no pulse of the encoder is
    ever counted and no lap is ever rewarded: on a car built by [__init__]
    with its camera, after any calls of [reset], [step] and [close] and any
    such events in any order, the pulse count is 0, the speed is 0 and the
    reward is at most 0. *)
Theorem delivered_edges_count_nothing
    (motor_limitation : Q) (cam : PiCamera) (car : RacingCar) (requests : list request) :
  __init__ motor_limitation cam = Return car ->
  Forall delivered requests ->
  _encoder_pulse_count (serve_all requests car) = 0%Z
  /\ Car_speed (_car_info (serve_all requests car)) == 0
  /\ Reward (_car_info (serve_all requests car)) <= 0.
Proof.
  intros H Hall. destruct (__init___returned _ _ _ H) as [_ [_ [Hi Hc]]].
  apply (serve_all_delivered_invariant
           (fun c => _encoder_pulse_count c = 0%Z /\ Car_speed (_car_info c) == 0 /\
                     Reward (_car_info c) <= 0)).
  - apply serve_delivered_counts_nothing.
  - exact Hall.
  - rewrite Hi, Hc. split; [ reflexivity | ]. split; [ reflexivity | apply Qle_refl ].
Qed.

Lemma delivered_edges_count_nothing_witness :
  __init__ (6 # 10) still_camera = Return fresh_car /\
  let later :=
    serve_all [within_episode (event 12 1 0); within_episode (event 12 1 1);
               within_episode (event 13 1 2); within_episode (event 12 2 3);
               within_episode (call_step (np_array [0; 1]));
               within_episode (event 13 2 4); call_reset;
               within_episode (event 12 1 5)] fresh_car in
  _encoder_pulse_count later = 0%Z /\ Car_speed (_car_info later) == 0 /\
  Reward (_car_info later) <= 0.
Proof.
  split; [ reflexivity | ].
  refine (delivered_edges_count_nothing (6 # 10) still_camera fresh_car _ eq_refl _).
  repeat (apply Forall_cons;
          [ cbn [delivered]; first [ exact I | left; reflexivity | right; reflexivity ] | ]).
  apply Forall_nil.
Defined.

(** ** Windows of the lap marker without a lap *)

(** X13.  Timeouts of the lap marker with no lap in between count the reward
    down by 1 each: after n of them from the reward r the reward is r - n;
    [Done] is true as soon as r - n is below 0 (n at least 1), and is what it
    was as long as r - n is not. *)
Theorem lap_timeouts_countdown (ticks : list Z) :
  forall self,
    let later := perform_all (lap_timeouts ticks) self in
    let left := Reward (_car_info self) - inject_Z (Z.of_nat (List.length ticks)) in
    Reward (_car_info later) == left
    /\ (ticks <> [] -> left < 0 -> Done (_car_info later) = true)
    /\ (~ left < 0 -> Done (_car_info later) = Done (_car_info self)).
Proof.
  induction ticks as [ | tick ticks IH]; intros self later left.
  - subst later left.
    cbn [lap_timeouts map perform_all fold_left List.length Z.of_nat].
    change (inject_Z 0) with 0.
    split; [ lra | ]. split; [ congruence | reflexivity ].
  - subst later left.
    cbn [lap_timeouts map perform_all fold_left perform].
    change (snd (_interrupt_handle _ENCODER_ZERO_PIN pigpio.TIMEOUT tick self))
      with (lap_marker pigpio.TIMEOUT tick self).
    change (fold_left (fun car o => perform o car) (map _ ticks))
      with (perform_all (lap_timeouts ticks)).
    set (one := lap_marker pigpio.TIMEOUT tick self).
    destruct (IH one) as [Hr [Hneg Hkeep]].
    assert (Hone : Reward (_car_info one) = Reward (_car_info self) - 1)
      by apply lap_timeout_Reward.
    assert (Hlen : inject_Z (Z.of_nat (List.length (tick :: ticks)))
                   == 1 + inject_Z (Z.of_nat (List.length ticks))).
    { rewrite length_cons, Nat2Z.inj_succ. unfold Z.succ.
      rewrite inject_Z_plus. change (inject_Z 1) with 1. lra. }
    assert (Hnn : 0 <= inject_Z (Z.of_nat (List.length ticks))).
    { change 0 with (inject_Z 0). rewrite <- Zle_Qle. lia. }
    rewrite Hone in Hr, Hneg, Hkeep.
    split; [ rewrite Hr, Hlen; lra | ]. split.
    + intros _ Hleft. rewrite Hlen in Hleft.
      destruct ticks as [ | tick' ticks].
      * change (inject_Z (Z.of_nat (List.length (@nil Z)))) with 0 in Hleft.
        cbn [lap_timeouts map perform_all fold_left]. subst one.
        apply lap_timeout_Done. lra.
      * apply Hneg; [ discriminate | lra ].
    + intros Hleft. rewrite Hlen in Hleft.
      rewrite Hkeep by lra.
      apply lap_timeout_Done_kept. lra.
Qed.

(** ** The history of the devices *)

Lemma serve_extends_calls (r : request) (self : RacingCar) :
  exists new, calls (serve r self) = calls self ++ new.
Proof.
  destruct r as [ | [action | | gpio level tick]]; cbn [serve perform].
  - rewrite reset_run. unfold after_reset. run. rewrite <- app_assoc. eexists. reflexivity.
  - destruct (step_cases action self)
      as [[_ E] | [[_ [_ E]] | [_ [_ [s [m [E _]]]]]]]; rewrite E; cbn [snd].
    + exists []. now rewrite app_nil_r.
    + exists []. now rewrite app_nil_r.
    + unfold after_step. run. rewrite <- app_assoc. eexists. reflexivity.
  - rewrite close_run. run. rewrite <- !app_assoc. eexists. reflexivity.
  - destruct (_interrupt_handle_cases gpio level tick self)
      as [[_ E] | [[_ [_ E]] | [[_ [_ E]] | [[_ [_ E]] | [[_ [_ [d [E _]]]] | E]]]]];
      rewrite E; exists []; now rewrite app_nil_r.
Qed.

(** X14.  The devices are only ever called at the end of what they have
    received: after any calls of [reset], [step] and [close] and any events,
    the earlier history is a prefix of the later one.  An event adds no call;
    a [step] adds none when it raises and a steering pulse, a motor pulse
    and a capture when it returns; [reset] adds the neutral pulses and a
    capture; [close] closes the camera, sends the neutral pulses and then
    stops pigpio. *)
Theorem calls_only_grow (self : RacingCar) :
  (forall requests, exists new, calls (serve_all requests self) = calls self ++ new)
  /\ (forall gpio level tick,
         calls (snd (_interrupt_handle gpio level tick self)) = calls self)
  /\ (forall action e final,
         step action self = (Raise e, final) -> calls final = calls self)
  /\ (forall action obs final,
         step action self = (Return obs, final) ->
         exists ps pm, calls final = calls self ++ [steer ps; drive pm; capture])
  /\ (exists ps pm,
         calls (snd (reset self)) = calls self ++ [steer ps; drive pm; capture] /\
         ps == 1500 /\ pm == 1500)
  /\ (exists ps pm,
         calls (snd (close self))
         = calls self ++ [cam_close; steer ps; drive pm; pi_stop] /\
         ps == 1500 /\ pm == 1500).
Proof.
  repeat match goal with |- _ /\ _ => split end.
  - intros requests. revert self.
    induction requests as [ | r requests IH]; intros self.
    + exists []. now rewrite app_nil_r.
    + cbn [serve_all fold_left].
      destruct (serve_extends_calls r self) as [new1 E1].
      destruct (IH (serve r self)) as [new2 E2].
      exists (new1 ++ new2). unfold serve_all in E2. rewrite E2, E1.
      now rewrite app_assoc.
  - intros gpio level tick.
    destruct (_interrupt_handle_cases gpio level tick self)
      as [[_ E] | [[_ [_ E]] | [[_ [_ E]] | [[_ [_ E]] | [[_ [_ [d [E _]]]] | E]]]]];
      rewrite E; reflexivity.
  - intros action e final H. now rewrite (step_raise_unchanged action self final e H).
  - intros action obs final H.
    destruct (step_cases action self)
      as [[_ E] | [[_ [_ E]] | [_ [_ [s [m [E _]]]]]]]; rewrite E in H;
      try discriminate H.
    injection H as _ <-. do 2 eexists.
    unfold after_step. run. rewrite <- app_assoc. reflexivity.
  - do 2 eexists. rewrite reset_run. unfold after_reset. run.
    rewrite <- app_assoc. split; [ reflexivity | ]. split; reflexivity.
  - do 2 eexists. rewrite close_run. run. rewrite <- !app_assoc.
    split; [ reflexivity | ]. split; reflexivity.
Qed.
